(** * Inventory monitoring: the fine-tuning script [train.py]

    A shallow embedding of the control logic of [train.py]: the head
    construction of [net], the data loaders of [create_data_loaders], the
    epoch loop with early stopping of [train], the evaluation pass of
    [test] and the layer list computed by the command-line entry point.

    The tensor framework and the image library are external.  Their
    objects are modelled at the level the script observes them:
    - a parameter tensor is a reference to a storage cell; the optimizer
      updates the cell in place, [state_dict] hands out the references
      and [load_state_dict] copies cell contents;
    - a validation score, a Python float obtained as
      [100.0 * correct / m], is the exact rational with that value (for
      counts below 2^46 the float quotient is strictly monotone in
      [correct], so every comparison of scores agrees);
    - the numerical work of one pass over a loader (forward, loss,
      backward, optimizer step) is an oracle of the epoch index and the
      current storage. *)

From Stdlib Require Import ZArith QArith List Lia Ascii.
From stdpp Require Import gmap strings list fin_maps.

Open Scope Z_scope.

(** ** Python values and exceptions *)

Module Py.

(** The exceptions the modelled statements can raise.
    [UnknownModelError] is the name used by the specification's error
    taxonomy; no statement of the script raises it. *)
Inductive exn :=
| ZeroDivisionError
| TypeError
| AttributeError
| IndexError
| RuntimeError
| ValueError
| FileNotFoundError
| UnknownModelError.

Inductive outcome (A : Type) :=
| Ok (a : A)
| Raise (e : exn).
Arguments Ok {A} a.
Arguments Raise {A} e.

(** [xs[i]] with Python's negative indices; [None] stands for the
    [IndexError] of an index out of range. *)
Definition index {A} (xs : list A) (i : Z) : option A :=
  let n := Z.of_nat (length xs) in
  if (0 <=? i) && (i <? n) then xs !! Z.to_nat i
  else if (- n <=? i) && (i <? 0) then xs !! Z.to_nat (n + i)
  else None.

(** [x < y] on exact rationals. *)
Definition Qlt_bool (x y : Q) : bool := negb (Qle_bool y x).

(** Names for which [eval("models." + name)] is a single attribute
    lookup: ASCII identifiers that are not keywords.  Any other string
    is a different expression (a dotted path, a call, a syntax error)
    and is outside the fragment modelled here. *)
Definition is_id_start (c : ascii) : bool :=
  let n := nat_of_ascii c in
  ((65 <=? n) && (n <=? 90) || (97 <=? n) && (n <=? 122) || (n =? 95))%nat.

Definition is_id_continue (c : ascii) : bool :=
  let n := nat_of_ascii c in
  (is_id_start c || (48 <=? n) && (n <=? 57))%nat.

Definition keywords : list string :=
  ["False"; "None"; "True"; "and"; "as"; "assert"; "async"; "await";
   "break"; "class"; "continue"; "def"; "del"; "elif"; "else"; "except";
   "finally"; "for"; "from"; "global"; "if"; "import"; "in"; "is";
   "lambda"; "nonlocal"; "not"; "or"; "pass"; "raise"; "return"; "try";
   "while"; "with"; "yield"]%string.

Definition is_identifier (s : string) : bool :=
  match s with
  | EmptyString => false
  | String c r => is_id_start c && forallb is_id_continue (String.list_ascii_of_string r)
  end.

Definition is_plain_name (s : string) : bool :=
  is_identifier s && negb (bool_decide (s ∈ keywords)).

End Py.
Export Py.

(** Everything written through [logger.info].  Floats that are only
    formatted into a message (average losses) are left out. *)
Inductive log_record :=
| ModelCreationStarted
| ModelCreationCompleted
| TrainingStarted
| TrainEpoch (epoch : nat) (correct l : Z)
| ValEpoch (epoch : nat) (correct m : Z) (score : Q)
| EarlyStopping
| TrainingCompleted
| StartTesting
| TestSet (correct l : Z) (average_loss : Q).

(** ** Parameter storage *)

Module Torch.

(** A storage cell is named by a location.  It holds the numbers of
    the tensor and the [requires_grad] flag of the parameter. *)
Definition loc := nat.
Definition tensor := list Q.
Record cell := { data : tensor; requires_grad : bool }.
Abbreviation heap := (gmap loc cell).

(** A state dictionary maps names to tensors.  A tensor is a view on a
    storage cell, so the dictionary holds locations. *)
Abbreviation state_dict := (gmap string loc).

(** The model as [train] uses it: its named parameters and buffers,
    each bound to the cell it lives in. *)
Record module := { named_parameters : gmap string loc }.

(** [model.state_dict()]: the entries are the parameters' own tensors
    (detached views sharing storage), not copies. *)
Definition get_state_dict (model : module) : state_dict :=
  named_parameters model.

(** [param.copy_(input_param)]: overwrite the numbers of [dst] with
    the numbers of [src]. *)
Definition copy_ (dst src : loc) (h : heap) : heap :=
  match h !! src with
  | Some c => alter (fun d => {| data := data c; requires_grad := requires_grad d |}) dst h
  | None => h
  end.

Definition load_entries (sd : state_dict) (ps : list (string * loc)) (h : heap) : heap :=
  foldl (fun h p => match sd !! p.1 with
                     | Some src => copy_ p.2 src h
                     | None => h
                     end) h ps.

(** [model.load_state_dict(sd)] with the default [strict=True]:
    [None] is rejected ([TypeError]: a dict-like object is expected),
    missing or unexpected keys are rejected ([RuntimeError]),
    otherwise every parameter receives the numbers of its entry. *)
Definition load_state_dict (model : module) (sd : option state_dict) (h : heap)
  : outcome heap :=
  match sd with
  | None => Raise TypeError
  | Some sd =>
      if decide (dom sd = dom (named_parameters model))
      then Ok (load_entries sd (map_to_list (named_parameters model)) h)
      else Raise RuntimeError
  end.

(** The numbers of the model's parameters in a given storage. *)
Definition parameter_values (model : module) (h : heap) : gmap string tensor :=
  omap (fun l => data <$> h !! l) (named_parameters model).

(** Object creation: a cell that no existing object occupies. *)
Definition alloc (c : cell) (h : heap) : loc * heap :=
  let l := fresh (dom h) in (l, <[l := c]> h).

(** [param.requires_grad = b]. *)
Definition set_requires_grad (b : bool) (l : loc) (h : heap) : heap :=
  alter (fun c => {| data := data c; requires_grad := b |}) l h.

(** The default random generator, a global of the framework: the
    numbers it is going to produce and how many were consumed. *)
Record rng := { stream : nat -> Q; position : nat }.

(** [torch.rand(1)]. *)
Definition rand (g : rng) : Q * rng :=
  (stream g (position g), {| stream := stream g; position := S (position g) |}).

(** The random initialisation of a linear layer ([reset_parameters]):
    from the two widths and the generator, the initial numbers of
    the weight and of the bias, and the generator it leaves. *)
Definition linear_init : Type := Z -> Z -> rng -> tensor * tensor * rng.

End Torch.
Export Torch.

(** ** The training controller: [train] (lines 52-129) *)

(** What one epoch computes on the data: the in-place effect of the
    optimizer steps of the training pass on the storage together with
    the number of correct training predictions, and the number of
    correct validation predictions.  Both depend on the epoch index
    (shuffling and random augmentation differ from pass to pass). *)
Record epoch_runner := {
  len_train : Z;                                (* l = len(train_loader.dataset) *)
  len_valid : Z;                                (* m = len(valid_loader.dataset) *)
  train_pass : nat -> heap -> heap * Z;         (* lines 69-86 *)
  valid_pass : nat -> heap -> Z                 (* lines 98-110 *)
}.

(** The local variables of [train] together with the storage and the
    log. *)
Record TrainingState := {
  st_heap : heap;
  best_score : Q;
  best_model : option state_dict;
  count : Z;
  epochs_done : nat;
  st_log : list log_record
}.

Definition set_heap (h : heap) (s : TrainingState) : TrainingState :=
  {| st_heap := h; best_score := best_score s; best_model := best_model s;
     count := count s; epochs_done := epochs_done s; st_log := st_log s |}.

Definition set_count (c : Z) (s : TrainingState) : TrainingState :=
  {| st_heap := st_heap s; best_score := best_score s; best_model := best_model s;
     count := c; epochs_done := epochs_done s; st_log := st_log s |}.

Definition set_best (score : Q) (sd : state_dict) (s : TrainingState) : TrainingState :=
  {| st_heap := st_heap s; best_score := score; best_model := Some sd;
     count := count s; epochs_done := epochs_done s; st_log := st_log s |}.

Definition tick_epoch (s : TrainingState) : TrainingState :=
  {| st_heap := st_heap s; best_score := best_score s; best_model := best_model s;
     count := count s; epochs_done := S (epochs_done s); st_log := st_log s |}.

Definition info (r : log_record) (s : TrainingState) : TrainingState :=
  {| st_heap := st_heap s; best_score := best_score s; best_model := best_model s;
     count := count s; epochs_done := epochs_done s; st_log := st_log s ++ [r] |}.

Inductive control :=
| Next (s : TrainingState)        (* fall through to the next iteration *)
| Break (s : TrainingState)       (* [break] *)
| Throw (e : exn) (s : TrainingState).

Inductive train_result :=
| Returned (s : TrainingState)
| Raised (e : exn) (s : TrainingState).

(** Lines 53-60. *)
Definition init_state (h : heap) : TrainingState :=
  {| st_heap := h; best_score := 0%Q; best_model := None; count := 0;
     epochs_done := 0; st_log := [TrainingStarted] |}.

(** Line 113. *)
Definition score_of (correct m : Z) : Q := (100 * inject_Z correct / inject_Z m)%Q.

(** Lines 117-126. *)
Definition track_best (model : module) (tol : Z) (score : Q) (s : TrainingState) : control :=
  if Qlt_bool (best_score s) score then
    Next (set_count 0 (set_best score (get_state_dict model) s))
  else
    let s1 := set_count (count s + 1) s in
    if count s1 =? tol then
      let s2 := info EarlyStopping s1 in
      match load_state_dict model (best_model s2) (st_heap s2) with
      | Ok h => Break (set_heap h s2)
      | Raise e => Throw e s2
      end
    else Next s1.

(** The body of the [for] loop, lines 64-126, for loop index [i].  An
    empty loader yields no batch, so the division by its length is the
    first thing that happens to the accumulated loss. *)
Definition epoch_body (R : epoch_runner) (model : module) (tol : Z) (i : nat)
    (s : TrainingState) : control :=
  if len_train R =? 0 then Throw ZeroDivisionError s                 (* line 88 *)
  else
    let (h1, correct_train) := train_pass R i (st_heap s) in
    let s1 := info (TrainEpoch (S i) correct_train (len_train R)) (set_heap h1 s) in
    if len_valid R =? 0 then Throw ZeroDivisionError s1              (* line 112 *)
    else
      let correct_val := valid_pass R i h1 in
      let score := score_of correct_val (len_valid R) in
      track_best model tol score
        (tick_epoch (info (ValEpoch (S i) correct_val (len_valid R) score) s1)).

(** [for i in range(epochs)], at index [i] with [n] iterations left. *)
Fixpoint for_range (R : epoch_runner) (model : module) (tol : Z) (i n : nat)
    (s : TrainingState) : control :=
  match n with
  | O => Next s
  | S n' =>
      match epoch_body R model tol i s with
      | Next s' => for_range R model tol (S i) n' s'
      | Break s' => Break s'
      | Throw e s' => Throw e s'
      end
  end.

(** Lines 128-129, reached when the loop ends or is left by [break]. *)
Definition finish (model : module) (s : TrainingState) : train_result :=
  let s1 := info TrainingCompleted s in
  match load_state_dict model (best_model s1) (st_heap s1) with
  | Ok h => Returned (set_heap h s1)
  | Raise e => Raised e s1
  end.

Definition train (R : epoch_runner) (model : module) (h : heap) (epochs tol : Z)
  : train_result :=
  match for_range R model tol 0 (Z.to_nat epochs) (init_state h) with
  | Next s | Break s => finish model s
  | Throw e s => Raised e s
  end.

Definition final_state (r : train_result) : TrainingState :=
  match r with Returned s | Raised _ s => s end.

(** The storage after the training passes of the first [k] epochs, and
    the validation score of epoch [k] (epochs are numbered from 1, as in
    the log). *)
Fixpoint heap_after (R : epoch_runner) (h : heap) (k : nat) : heap :=
  match k with
  | O => h
  | S k' => (train_pass R k' (heap_after R h k')).1
  end.

Definition score_at (R : epoch_runner) (h : heap) (k : nat) : Q :=
  score_of (valid_pass R (pred k) (heap_after R h k)) (len_valid R).

(** ** The model adapter: [net] (lines 131-156) *)

Module Nn.

(** [net] creates objects, writes log records and, through the
    framework, draws random numbers: its statements run in a
    state-and-exception monad over the object store, the log and the
    default random generator. *)
Record world := {
  objects : heap;
  records : list log_record;
  generator : rng
}.

Definition M (A : Type) : Type := world -> outcome A * world.

Definition ret {A} (a : A) : M A := fun w => (Ok a, w).

Definition raise {A} (e : exn) : M A := fun w => (Raise e, w).

Definition bind {A B} (c : M A) (k : A -> M B) : M B :=
  fun w => match c w with
           | (Ok a, w') => k a w'
           | (Raise e, w') => (Raise e, w')
           end.

Definition logger_info (r : log_record) : M unit :=
  fun w => (Ok tt, {| objects := objects w; records := records w ++ [r];
                      generator := generator w |}).

Definition on_objects {A} (f : heap -> A * heap) : M A :=
  fun w => let (a, h) := f (objects w) in
           (Ok a, {| objects := h; records := records w; generator := generator w |}).

Definition on_generator {A} (f : rng -> A * rng) : M A :=
  fun w => let (a, g) := f (generator w) in
           (Ok a, {| objects := objects w; records := records w; generator := g |}).

Definition of_option {A} (e : exn) (o : option A) : M A :=
  match o with Some a => ret a | None => raise e end.

End Nn.
Export Nn.

Notation "x <- c ;; k" := (Nn.bind c (fun x => k))
  (at level 100, c at next level, right associativity).
Notation "c ;;; k" := (Nn.bind c (fun _ => k))
  (at level 100, right associativity).

(** A linear layer knows its widths and owns two parameters. *)
Record linear := {
  in_features : Z;
  out_features : Z;
  weight : loc;
  bias : loc
}.

Inductive layer :=
| Linear (l : linear)
| ReLU.

(** The value of the attribute [fc]: the single linear layer of a
    pretrained network, or the [nn.Sequential] put there by [net]. *)
Inductive head :=
| Single (l : linear)
| Sequential (seq : list layer).

(** A network: the named parameters of every submodule but [fc] (the
    trunk), and the attribute [fc] when the architecture has one. *)
Record network := {
  trunk : list (string * loc);
  fc : option head
}.

(** What a constructor of [torchvision.models] called with
    [pretrained=True] builds: the downloaded numbers of the trunk, and
    of the classifier [fc] (input width, output width, weight, bias)
    for the architectures that have this attribute.  Before the
    downloaded numbers are loaded the constructor initialises its
    layers at random; [construction] is the generator it leaves. *)
Record pretrained := {
  trunk_weights : list (string * tensor);
  fc_weights : option (Z * Z * tensor * tensor);
  construction : rng -> rng
}.

(** What a name of the namespace [torchvision.models] is bound to: a
    model constructor, or anything else (a submodule, a class, a
    string), for which the call with the two keyword arguments raises
    [TypeError]. *)
Inductive entry :=
| Builder (p : pretrained)
| NotBuilder.

(** A fresh parameter: gradients are enabled by default. *)
Definition new_parameter (v : tensor) : M loc :=
  on_objects (alloc {| data := v; requires_grad := true |}).

Fixpoint new_parameters (ps : list (string * tensor)) : M (list (string * loc)) :=
  match ps with
  | [] => ret []
  | (name, v) :: ps' =>
      l <- new_parameter v ;;
      ls <- new_parameters ps' ;;
      ret ((name, l) :: ls)
  end.

(** [nn.Linear(a, b)]: a tensor with a negative dimension cannot be
    created; the initial numbers are drawn from the default generator
    ([init a b]). *)
Definition nn_Linear (init : linear_init) (a b : Z) : M linear :=
  if (a <? 0) || (b <? 0) then raise RuntimeError
  else
    v <- on_generator (init a b) ;;
    w <- new_parameter v.1 ;;
    c <- new_parameter v.2 ;;
    ret {| in_features := a; out_features := b; weight := w; bias := c |}.

(** Line 135: [eval("models." + model_name)(pretrained=True, progress=True)]
    for a plain name. *)
Definition lookup_model (models : gmap string entry) (model_name : string) : M entry :=
  of_option AttributeError (models !! model_name).

Definition instantiate (init : linear_init) (e : entry) : M network :=
  match e with
  | NotBuilder => raise TypeError
  | Builder p =>
      on_generator (fun g => (tt, construction p g)) ;;;
      t <- new_parameters (trunk_weights p) ;;
      match fc_weights p with
      | None => ret {| trunk := t; fc := None |}
      | Some (a, b, w0, b0) =>
          w <- new_parameter w0 ;;
          c <- new_parameter b0 ;;
          ret {| trunk := t;
                 fc := Some (Single {| in_features := a; out_features := b;
                                       weight := w; bias := c |}) |}
      end
  end.

Definition linear_parameters (l : linear) : list loc := [weight l; bias l].

Definition layer_parameters (l : layer) : list loc :=
  match l with
  | Linear l => linear_parameters l
  | ReLU => []
  end.

Definition head_parameters (f : option head) : list loc :=
  match f with
  | None => []
  | Some (Single l) => linear_parameters l
  | Some (Sequential seq) => concat (map layer_parameters seq)
  end.

(** [model.parameters()]. *)
Definition parameters (model : network) : list loc :=
  (trunk model).*2 ++ head_parameters (fc model).

(** Lines 137-138. *)
Definition freeze (model : network) : M unit :=
  on_objects (fun h =>
    (tt, foldl (fun h l => set_requires_grad false l h) h (parameters model))).

(** Line 140: [model.fc.in_features]. *)
Definition fc_in_features (model : network) : M Z :=
  match fc model with
  | Some (Single l) => ret (in_features l)
  | _ => raise AttributeError
  end.

(** Lines 146-148: the loop over [range(len(full)-2)], appending to
    [seq]. *)
Fixpoint hidden_layers (init : linear_init) (full : list Z)
    (range : list nat) (seq : list layer) : M (list layer) :=
  match range with
  | [] => ret seq
  | i :: range' =>
      a <- of_option IndexError (index full (Z.of_nat i)) ;;
      b <- of_option IndexError (index full (Z.of_nat i + 1)) ;;
      l <- nn_Linear init a b ;;
      hidden_layers init full range' (seq ++ [Linear l; ReLU])
  end.

(** Lines 142-152. *)
Definition build_head (init : linear_init) (num_features num_classes : Z)
    (layers : list Z) : M (list layer) :=
  let full := [num_features] ++ layers ++ [num_classes] in
  seq <- hidden_layers init full (seq 0 (length full - 2)) [] ;;
  a <- of_option IndexError (index full (-2)) ;;
  b <- of_option IndexError (index full (-1)) ;;
  l <- nn_Linear init a b ;;
  ret (seq ++ [Linear l]).

(** Lines 137-156: what [net] does with the network once it is
    instantiated. *)
Definition adapt (init : linear_init) (num_classes : Z) (layers : list Z)
    (model : network) : M network :=
  freeze model ;;;
  num_features <- fc_in_features model ;;
  seq <- build_head init num_features num_classes layers ;;
  logger_info ModelCreationCompleted ;;;
  ret {| trunk := trunk model; fc := Some (Sequential seq) |}.

Definition net_body (models : gmap string entry) (init : linear_init)
    (model_name : string) (num_classes : Z) (layers : list Z) : M network :=
  logger_info ModelCreationStarted ;;;
  e <- lookup_model models model_name ;;
  model <- instantiate init e ;;
  adapt init num_classes layers model.

(** [net(model_name, num_classes, layers)]; [None] for a name that is
    not a plain identifier. *)
Definition net (models : gmap string entry) (init : linear_init)
    (model_name : string) (num_classes : Z) (layers : list Z) (w : world)
  : option (outcome network * world) :=
  if is_plain_name model_name
  then Some (net_body models init model_name num_classes layers w)
  else None.

(** The widths of a head, without the parameters. *)
Inductive layer_shape :=
| LinearShape (a b : Z)
| ReLUShape.

Definition shape (l : layer) : layer_shape :=
  match l with
  | Linear l => LinearShape (in_features l) (out_features l)
  | ReLU => ReLUShape
  end.

(** The head as the specification words it: over the width profile,
    one linear layer per pair of neighbours, an activation after each
    but the last. *)
Fixpoint head_of_profile (profile : list Z) : list layer_shape :=
  match profile with
  | a :: (b :: rest) as tl =>
      match rest with
      | [] => [LinearShape a b]
      | _ => LinearShape a b :: ReLUShape :: head_of_profile tl
      end
  | _ => []
  end.

(** ** The entry point: line 304 *)


(** ** Data loaders: [create_data_loaders] (lines 158-199) *)

Module Vision.

(** An image: channels, rows, columns. *)
Definition image := list (list (list Q)).

Inductive transform :=
| RandomResizedCrop (size : Z * Z)
| RandomHorizontalFlip
| Resize (size : Z * Z)
| ToTensor
| Normalize (mean std : list Q).

(** The transforms that consult the random generator. *)
Definition is_random (t : transform) : bool :=
  match t with
  | RandomResizedCrop _ | RandomHorizontalFlip => true
  | Resize _ | ToTensor | Normalize _ _ => false
  end.

(** The operations of the image library whose numerics are not
    reproduced here: interpolation, the sampling of a crop box and of
    a permutation. *)
Record backend := {
  resize : Z * Z -> image -> image;
  random_resized_crop : Z * Z -> image -> rng -> image * rng;
  randperm : nat -> rng -> list nat * rng
}.

Definition hflip (img : image) : image := map (map (@rev Q)) img.

Definition normalize_channel (c : list (list Q)) (ms : Q * Q) : list (list Q) :=
  map (map (fun x => ((x - ms.1) / ms.2)%Q)) c.

(** One transform applied to one image.  [RandomHorizontalFlip] flips
    when [torch.rand(1) < p] with the default [p = 0.5]. *)
Definition apply_transform (B : backend) (t : transform) (img : image) (g : rng)
  : image * rng :=
  match t with
  | RandomResizedCrop size => random_resized_crop B size img g
  | RandomHorizontalFlip =>
      let (u, g') := rand g in
      (if Qlt_bool u (1 # 2) then hflip img else img, g')
  | Resize size => (resize B size img, g)
  | ToTensor => (map (map (map (fun x => (x / 255)%Q))) img, g)
  | Normalize mean std => (zip_with normalize_channel img (zip mean std), g)
  end.

(** [transforms.Compose]. *)
Definition compose (B : backend) (ts : list transform) (img : image) (g : rng)
  : image * rng :=
  foldl (fun ig t => apply_transform B t ig.1 ig.2) (img, g) ts.

(** [ImageFolder]: the decoded files with their class index, and the
    transform applied on every access. *)
Record ImageFolder := {
  samples : list (image * Z);
  transform_of : list transform
}.

(** [random_split] yields views on the dataset it was given. *)
Record Subset := {
  dataset : ImageFolder;
  indices : list nat
}.

Record DataLoader := {
  loader_dataset : Subset;
  batch_size : Z;
  shuffle : bool
}.

(** [subset[i]], that is [dataset[indices[i]]]; the transform runs
    now, on the generator's current state. *)
Definition getitem (B : backend) (s : Subset) (i : nat) (g : rng)
  : option ((image * Z) * rng) :=
  match indices s !! i with
  | None => None
  | Some j =>
      match samples (dataset s) !! j with
      | None => None
      | Some (img, target) =>
          let (x, g') := compose B (transform_of (dataset s)) img g in
          Some ((x, target), g')
      end
  end.

End Vision.
Export Vision.

(** Lines 160-165. *)
Definition train_transform : list transform :=
  [RandomResizedCrop (224, 224); RandomHorizontalFlip; ToTensor;
   Normalize [1 # 2; 1 # 2; 1 # 2]%Q [1 # 2; 1 # 2; 1 # 2]%Q].

(** Lines 167-171. *)
Definition test_transform : list transform :=
  [Resize (224, 224); ToTensor;
   Normalize [1 # 2; 1 # 2; 1 # 2]%Q [1 # 2; 1 # 2; 1 # 2]%Q].

(** The lengths [random_split] derives from the fractions
    [0.8, 0.1, 0.1]: the floors, then the remainder handed out one by
    one from the first length on. *)
Definition split_lengths (n : nat) : list nat :=
  let floors := [8 * n / 10; n / 10; n / 10]%nat in
  let remainder := (n - sum_list floors)%nat in
  foldl (fun ls i => alter S (i mod 3)%nat ls) floors (seq 0 remainder).

Definition random_split (B : backend) (data : ImageFolder) (g : rng)
  : list Subset * rng :=
  let (perm, g') := randperm B (length (samples data)) g in
  let cut (acc : list Subset * list nat) (n : nat) :=
    (acc.1 ++ [{| dataset := data; indices := take n acc.2 |}], drop n acc.2) in
  ((foldl cut ([], perm) (split_lengths (length (samples data)))).1, g').

(** [DataLoader(data, batch_size=..., shuffle=...)]. *)
Definition new_DataLoader (data : Subset) (batch_size : Z) (shuffle : bool)
  : outcome DataLoader :=
  if batch_size <=? 0 then Raise ValueError
  else Ok {| loader_dataset := data; batch_size := batch_size; shuffle := shuffle |}.

(** [create_data_loaders(data_path, batch_size)].  [files] is the
    content of the directory tree: the decoded images of a path with
    their class indices. *)
Definition create_data_loaders (B : backend) (files : string -> list (image * Z))
    (data_path : string) (batch_size : Z) (g : rng)
  : outcome (DataLoader * DataLoader * DataLoader) * rng :=
  match files data_path with
  | [] => (Raise FileNotFoundError, g)
  | _ =>
      let data := {| samples := files data_path; transform_of := train_transform |} in
      match random_split B data g with
      | ([train_data; valid_data; test_data], g') =>
          match new_DataLoader train_data batch_size true,
                new_DataLoader valid_data batch_size false,
                new_DataLoader test_data batch_size false with
          | Ok train_loader, Ok valid_loader, Ok test_loader =>
              (Ok (train_loader, valid_loader, test_loader), g')
          | _, _, _ => (Raise ValueError, g')
          end
      | (_, g') => (Raise ValueError, g')
      end
  end.

(** ** The evaluation reporter: [test] (lines 26-49) *)

(** The model in evaluation mode and the loss: the class scores of one
    image under the current parameters, and the mean loss of a batch. *)
Record evaluator := {
  forward : heap -> image -> list Q;
  criterion : list (list Q) -> list Z -> Q
}.

(** [output.max(1)[1]]: the index of the largest class score, the first
    one among equals. *)
Fixpoint argmax_from (best : Q) (best_i i : Z) (xs : list Q) : Z :=
  match xs with
  | [] => best_i
  | x :: xs' =>
      if Qlt_bool best x then argmax_from x i (i + 1) xs'
      else argmax_from best best_i (i + 1) xs'
  end.

Definition argmax (xs : list Q) : Z :=
  match xs with
  | [] => 0
  | x :: xs' => argmax_from x 0 1 xs'
  end.

(** The sequential sampler of a loader without shuffling: the positions
    [0 .. len-1] in batches of [batch_size]. *)
Fixpoint batches (fuel bs : nat) (xs : list nat) : list (list nat) :=
  match fuel, xs with
  | S fuel', _ :: _ => take bs xs :: batches fuel' bs (drop bs xs)
  | _, _ => []
  end.

Fixpoint fetch (B : backend) (s : Subset) (batch : list nat) (g : rng)
  : option (list (image * Z) * rng) :=
  match batch with
  | [] => Some ([], g)
  | i :: batch' =>
      match getitem B s i g with
      | None => None
      | Some (x, g1) =>
          match fetch B s batch' g1 with
          | None => None
          | Some (xs, g2) => Some (x :: xs, g2)
          end
      end
  end.

Record test_totals := { test_loss : Q; correct : Z }.

(** Lines 38-45, over the batches of the loader. *)
Fixpoint test_loop (B : backend) (E : evaluator) (h : heap) (s : Subset)
    (bs : list (list nat)) (acc : test_totals) (g : rng)
  : outcome test_totals * rng :=
  match bs with
  | [] => (Ok acc, g)
  | b :: bs' =>
      match fetch B s b g with
      | None => (Raise IndexError, g)
      | Some (batch, g') =>
          let output := map (fun x => forward E h x.1) batch in
          let target := batch.*2 in
          let loss := criterion E output target in
          let hits := length (filter (fun ot => argmax ot.1 = ot.2) (zip output target)) in
          test_loop B E h s bs'
            {| test_loss := (test_loss acc + loss * inject_Z (Z.of_nat (length batch)))%Q;
               correct := correct acc + Z.of_nat hits |} g'
      end
  end.

(** [test(model, test_loader, criterion, device, hook)]: the records it
    logs, and the generator it leaves behind. *)
Definition test (B : backend) (E : evaluator) (h : heap) (test_loader : DataLoader)
    (g : rng) : outcome (list log_record) * rng :=
  let s := loader_dataset test_loader in
  let l := length (indices s) in
  let bs := batches l (Z.to_nat (batch_size test_loader)) (seq 0 l) in
  match test_loop B E h s bs {| test_loss := 0; correct := 0 |} g with
  | (Ok t, g') =>
      if (l =? 0)%nat then (Raise ZeroDivisionError, g')            (* line 46 *)
      else (Ok [StartTesting;
                TestSet (correct t) (Z.of_nat l) (test_loss t / inject_Z (Z.of_nat l))%Q], g')
  | (Raise e, g') => (Raise e, g')
  end.

(** ** Auxiliary notions for the statements about [train] *)

(** The state in which [track_best] is entered in iteration [i], and
    the score it is entered with. *)
Definition scored_state (R : epoch_runner) (i : nat) (s : TrainingState) : TrainingState :=
  let (h1, correct_train) := train_pass R i (st_heap s) in
  let correct_val := valid_pass R i h1 in
  tick_epoch
    (info (ValEpoch (S i) correct_val (len_valid R) (score_of correct_val (len_valid R)))
       (info (TrainEpoch (S i) correct_train (len_train R)) (set_heap h1 s))).

Definition epoch_score (R : epoch_runner) (i : nat) (s : TrainingState) : Q :=
  score_of (valid_pass R i (train_pass R i (st_heap s)).1) (len_valid R).

(** What holds of the state between two iterations, [i] epochs after
    the start from storage [h0]. *)
Record loop_inv (R : epoch_runner) (model : module) (h0 : heap) (i : nat)
    (s : TrainingState) : Prop := {
  inv_epochs : epochs_done s = i;
  inv_heap : st_heap s = heap_after R h0 i;
  inv_count : 0 <= count s;
  inv_best :
    (best_score s = 0%Q /\ best_model s = None) \/
    (exists j, (1 <= j <= i)%nat /\ best_score s = score_at R h0 j /\
               best_model s = Some (get_state_dict model))
}.

(** A run for the examples: a model with one parameter, to which every
    training pass adds 1, and validation passes whose numbers of
    correct predictions (out of 10) are read off a script. *)
Definition demo_model : module :=
  {| named_parameters := {[ "fc.0.weight"%string := 0%nat ]} |}.

Definition demo_heap : heap :=
  {[ 0%nat := {| data := [0%Q]; requires_grad := true |} ]}.

Definition bump (c : cell) : cell :=
  {| data := map (Qplus 1) (data c); requires_grad := requires_grad c |}.

Definition scripted_runner (hits : list Z) : epoch_runner :=
  {| len_train := 80; len_valid := 10;
     train_pass := fun _ h => (alter bump 0%nat h, 40);
     valid_pass := fun i _ => nth i hits 0 |}.

Definition control_state (c : control) : TrainingState :=
  match c with Next s | Break s | Throw _ s => s end.

Definition leaves_loop (c : control) : bool :=
  match c with Next _ => false | Break _ | Throw _ _ => true end.

(** ** Auxiliary notions for the statements about [net] *)

(** A computation that returns normally, with a postcondition. *)
Definition returns {A} (c : M A) (w : world) (post : A -> world -> Prop) : Prop :=
  exists a w', c w = (Ok a, w') /\ post a w'.

(** Whatever a computation returns satisfies the postcondition. *)
Definition ensures {A} (c : M A) (w : world) (post : A -> world -> Prop) : Prop :=
  forall a w', c w = (Ok a, w') -> post a w'.

Definition trainable (h : heap) (l : loc) : Prop :=
  exists c, h !! l = Some c /\ requires_grad c = true.

Definition frozen (h : heap) (l : loc) : Prop :=
  exists c, h !! l = Some c /\ requires_grad c = false.

(** From [w] to [w'] nothing happened but the creation of the
    parameters [ls]. *)
Definition allocates (w : world) (ls : list loc) (w' : world) : Prop :=
  (objects w ⊆ objects w') /\ records w' = records w /\
  Forall (fun l => (l ∉ dom (objects w)) /\ trainable (objects w') l) ls.

(** The width profile read by index, as the loop of [net] reads it. *)
Definition hidden_shapes (full : list Z) (range : list nat) : list layer_shape :=
  flat_map (fun j => [LinearShape (nth j full 0) (nth (S j) full 0); ReLUShape]) range.

(** [n] numbers drawn one after the other. *)
Fixpoint draw (n : nat) (g : rng) : tensor * rng :=
  match n with
  | O => ([], g)
  | S n' => let (x, g1) := rand g in
            let (xs, g2) := draw n' g1 in (x :: xs, g2)
  end.

Definition skip (n : nat) (g : rng) : rng := (draw n g).2.

(** An excerpt of the namespace [torchvision.models] for the examples:
    two residual networks (with [fc]), a VGG network (without), and
    the submodule [resnet]; each constructor is given one number per
    tensor. *)
Definition demo_models : gmap string entry :=
  {[ "resnet18"%string :=
       Builder {| trunk_weights := [("conv1.weight"%string, [1 # 4]%Q)];
                  fc_weights := Some (512, 1000, [1 # 8]%Q, [0]%Q);
                  construction := skip 3 |};
     "resnet50"%string :=
       Builder {| trunk_weights := [("conv1.weight"%string, [1 # 2]%Q)];
                  fc_weights := Some (2048, 1000, [1 # 16]%Q, [0]%Q);
                  construction := skip 3 |};
     "vgg16"%string :=
       Builder {| trunk_weights := [("features.0.weight"%string, [1 # 3]%Q)];
                  fc_weights := None;
                  construction := skip 1 |};
     "resnet"%string := NotBuilder ]}.

(** An initialisation that draws one number for every entry of the
    weight and of the bias. *)
Definition demo_init : linear_init := fun a b g =>
  let (w, g1) := draw (Z.to_nat (a * b)) g in
  let (c, g2) := draw (Z.to_nat b) g1 in
  (w, c, g2).

(** A generator whose first number is 0 and whose later numbers are
    3/4. *)
Definition demo_rng : rng :=
  {| stream := fun n => match n with O => 0%Q | S _ => (3 # 4)%Q end; position := 0 |}.

Definition demo_world : world :=
  {| objects := {[ 7%nat := {| data := [1%Q]; requires_grad := true |} ]};
     records := [];
     generator := demo_rng |}.

(** The generator after the initialisations of the linear layers of a
    head with width profile [full], in the order of the layers. *)
Definition draws_for_head (init : linear_init) (full : list Z) (g : rng) : rng :=
  foldl (fun g j => (init (nth j full 0) (nth (S j) full 0) g).2) g
    (seq 0 (length full - 1)).

(** ** Stand-ins for the examples about the loaders *)

(** Nearest-neighbour resampling of a list to [n] entries: entry [i] of
    the result is entry [i * len / n] of the list. *)
Fixpoint pick_from {A} (todo : nat) (i n len : Z) (xs : list A) : list A :=
  match todo with
  | O => []
  | S todo' =>
      match xs !! Z.to_nat (i * len / n) with
      | Some x => x :: pick_from todo' (i + 1) n len xs
      | None => pick_from todo' (i + 1) n len xs
      end
  end.

Definition pick {A} (n : nat) (xs : list A) : list A :=
  pick_from n 0 (Z.of_nat n) (Z.of_nat (length xs)) xs.

Definition nearest_resize (size : Z * Z) (img : image) : image :=
  map (fun channel => map (pick (Z.to_nat size.2)) (pick (Z.to_nat size.1) channel)) img.

(** An image library in which resizing is nearest-neighbour, the
    sampled crop is always the whole image and the sampled permutation
    is the identity; none of them consumes a random number. *)
Definition demo_backend : backend :=
  {| resize := nearest_resize;
     random_resized_crop := fun size img g => (nearest_resize size img, g);
     randperm := fun n g => (seq 0 n, g) |}.

(** Ten copies of one picture of class 1: three channels, one row,
    a dark pixel on the left and a bright one on the right. *)
Definition demo_picture : image := repeat [[0; 255]%Q] 3.

Definition demo_files (path : string) : list (image * Z) :=
  if String.eqb path "data" then repeat (demo_picture, 1) 10 else [].

(** A classifier with two classes whose scores are the leftmost and the
    rightmost value of the first row of the first channel, with the
    share of wrong predictions as the loss. *)
Definition demo_evaluator : evaluator :=
  {| forward := fun _ img =>
       match img with
       | (row :: _) :: _ => [hd 0%Q row; default 0%Q (last row)]
       | _ => []
       end;
     criterion := fun output target =>
       (inject_Z (Z.of_nat (length (filter (fun ot => argmax ot.1 <> ot.2) (zip output target))))
        / inject_Z (Z.of_nat (length target)))%Q |}.

(** The numbers [test] reports. *)
Definition reported (r : outcome (list log_record)) : option (Z * Z * Q) :=
  match r with
  | Ok [StartTesting; TestSet correct l loss] => Some (correct, l, loss)
  | _ => None
  end.

(** ** Auxiliary notions for further statements *)

(** The best score is the largest score seen, and once a snapshot
    exists it is the score of the first epoch [k] that reached it. *)
Record best_inv (R : epoch_runner) (h0 : heap) (i : nat) (s : TrainingState) : Prop := {
  best_nonneg : (0 <= best_score s)%Q;
  best_upper : forall j, (1 <= j <= i)%nat -> (score_at R h0 j <= best_score s)%Q;
  best_first :
    best_model s <> None ->
    exists k, (1 <= k <= i)%nat /\ best_score s = score_at R h0 k /\
              (0 < score_at R h0 k)%Q /\
              forall j, (1 <= j < k)%nat -> (score_at R h0 j < score_at R h0 k)%Q
}.


(** The cell [l] holds the numbers [v]. *)
Definition holds (h : heap) (l : loc) (v : tensor) : Prop :=
  data <$> h !! l = Some v.

(** A computation that raises [e]. *)
Definition raises {A} (c : M A) (w : world) (e : exn) (post : world -> Prop) : Prop :=
  exists w', c w = (Raise e, w') /\ post w'.

(** The world in which [net] looks the model up: the start of the
    creation has been logged. *)
Definition started (w : world) : world :=
  {| objects := objects w; records := records w ++ [ModelCreationStarted];
     generator := generator w |}.

(** Epoch [j] sets a new best: its score strictly exceeds 0, the value
    [best_score] starts from, and the score of every earlier epoch. *)
Definition sets_new_best (R : epoch_runner) (h : heap) (j : nat) : Prop :=
  (0 < score_at R h j)%Q /\
  forall i, (1 <= i < j)%nat -> (score_at R h i < score_at R h j)%Q.

(** None of the last [count] epochs set a new best. *)
Record count_inv (R : epoch_runner) (h0 : heap) (i : nat) (s : TrainingState) : Prop := {
  count_le : count s <= Z.of_nat i;
  count_window :
    forall j, Z.of_nat i - count s < Z.of_nat j <= Z.of_nat i -> ~ sets_new_best R h0 j
}.

(** * Properties *)

(** ** Rationals and storage *)

Lemma Qlt_bool_true (x y : Q) : Qlt_bool x y = true <-> (x < y)%Q.
Proof.
  unfold Qlt_bool. rewrite negb_true_iff. split.
  - intros H. apply Qnot_le_lt. intros Hle. apply Qle_bool_iff in Hle. congruence.
  - intros H. destruct (Qle_bool y x) eqn:E; [|done].
    apply Qle_bool_iff in E. exfalso. by apply (Qlt_not_le x y).
Qed.

Lemma Qlt_bool_false (x y : Q) : Qlt_bool x y = false <-> (y <= x)%Q.
Proof.
  unfold Qlt_bool. rewrite negb_false_iff. apply Qle_bool_iff.
Qed.

Lemma score_of_zero (m : Z) : Qlt_bool 0 (score_of 0 m) = false.
Proof.
  apply Qlt_bool_false. unfold score_of.
  assert (H : (100 * inject_Z 0 / inject_Z m == 0)%Q) by (unfold Qdiv; ring).
  rewrite H. apply Qle_refl.
Qed.

Lemma copy_self (l : loc) (h : heap) : copy_ l l h = h.
Proof.
  unfold copy_. destruct (h !! l) as [c|] eqn:E; [|done].
  apply alter_id. intros x Hx. rewrite E in Hx. injection Hx as <-. by destruct c.
Qed.

Lemma load_entries_alias (sd : gmap string loc) ps (h : heap) :
  (forall p, p ∈ ps -> sd !! p.1 = Some p.2) -> load_entries sd ps h = h.
Proof.
  revert h. induction ps as [|p ps IH]; intros h H; [done|].
  cbn. rewrite (H p) by set_solver.
  rewrite copy_self. apply IH. intros q Hq. apply H. set_solver.
Qed.

Lemma load_state_dict_alias (model : module) (h : heap) :
  load_state_dict model (Some (get_state_dict model)) h = Ok h.
Proof.
  unfold load_state_dict, get_state_dict. rewrite decide_True by done.
  f_equal. apply load_entries_alias. intros [n l] Hp.
  by apply elem_of_map_to_list in Hp.
Qed.

Lemma set_heap_same (s : TrainingState) : set_heap (st_heap s) s = s.
Proof. by destruct s. Qed.

(** ** One iteration of the training loop *)

Section TrackBest.
Context (model : module) (tol : Z) (score : Q) (s : TrainingState).

Lemma track_best_improve :
  Qlt_bool (best_score s) score = true ->
  track_best model tol score s =
    Next (set_count 0 (set_best score (get_state_dict model) s)).
Proof. unfold track_best. by intros ->. Qed.

Lemma track_best_wait :
  Qlt_bool (best_score s) score = false -> count s + 1 <> tol ->
  track_best model tol score s = Next (set_count (count s + 1) s).
Proof.
  unfold track_best. intros -> H. cbn.
  by apply Z.eqb_neq in H as ->.
Qed.

Lemma track_best_stop :
  Qlt_bool (best_score s) score = false -> count s + 1 = tol ->
  best_model s = Some (get_state_dict model) ->
  track_best model tol score s =
    Break (info EarlyStopping (set_count (count s + 1) s)).
Proof.
  unfold track_best. intros -> H Hb. cbn.
  apply Z.eqb_eq in H as ->. rewrite Hb, load_state_dict_alias.
  f_equal.
Qed.

Lemma track_best_stop_unset :
  Qlt_bool (best_score s) score = false -> count s + 1 = tol ->
  best_model s = None ->
  track_best model tol score s =
    Throw TypeError (info EarlyStopping (set_count (count s + 1) s)).
Proof.
  unfold track_best. intros -> H Hb. cbn.
  apply Z.eqb_eq in H as ->. by rewrite Hb.
Qed.
End TrackBest.

Section Epoch.
Context (R : epoch_runner) (model : module) (tol : Z).
Hypothesis train_nonempty : len_train R <> 0.
Hypothesis valid_nonempty : len_valid R <> 0.

Lemma epoch_body_eq i s :
  epoch_body R model tol i s =
    track_best model tol (epoch_score R i s) (scored_state R i s).
Proof.
  unfold epoch_body, epoch_score, scored_state.
  apply Z.eqb_neq in train_nonempty as ->.
  destruct (train_pass R i (st_heap s)) as [h1 c]. cbn.
  by apply Z.eqb_neq in valid_nonempty as ->.
Qed.

Lemma scored_state_fields i s :
  st_heap (scored_state R i s) = (train_pass R i (st_heap s)).1 /\
  best_score (scored_state R i s) = best_score s /\
  best_model (scored_state R i s) = best_model s /\
  count (scored_state R i s) = count s /\
  epochs_done (scored_state R i s) = S (epochs_done s).
Proof.
  unfold scored_state. by destruct (train_pass R i (st_heap s)).
Qed.
End Epoch.

(** ** The training loop *)

Section Loop.
Context (R : epoch_runner) (model : module) (tol : Z) (h0 : heap).
Hypothesis train_nonempty : len_train R <> 0.
Hypothesis valid_nonempty : len_valid R <> 0.

Lemma init_state_inv : loop_inv R model h0 0 (init_state h0).
Proof. split; cbn; [done | done | lia | by left]. Qed.

Lemma epoch_score_at i s :
  loop_inv R model h0 i s -> epoch_score R i s = score_at R h0 (S i).
Proof.
  intros I. unfold epoch_score, score_at. cbn. by rewrite (inv_heap _ _ _ _ _ I).
Qed.

Lemma scored_state_heap i s :
  loop_inv R model h0 i s -> st_heap (scored_state R i s) = heap_after R h0 (S i).
Proof.
  intros I. destruct (scored_state_fields R i s) as (-> & _).
  cbn. by rewrite (inv_heap _ _ _ _ _ I).
Qed.

Lemma for_range_split a b i s :
  for_range R model tol i (a + b) s =
    match for_range R model tol i a s with
    | Next s' => for_range R model tol (i + a) b s'
    | c => c
    end.
Proof.
  revert i s. induction a as [|a IH]; intros i s; cbn.
  - by rewrite Nat.add_0_r.
  - destruct (epoch_body R model tol i s); [|done..].
    rewrite IH. by rewrite Nat.add_succ_r.
Qed.

(** One iteration keeps the invariant. *)
Lemma epoch_body_inv i s :
  loop_inv R model h0 i s ->
  match epoch_body R model tol i s with
  | Next s' | Break s' => loop_inv R model h0 (S i) s'
  | Throw e s' => e = TypeError /\ epochs_done s' = S i /\ best_model s' = None
  end.
Proof.
  intros I. rewrite epoch_body_eq by done.
  pose proof (scored_state_heap i s I) as Hh.
  destruct (scored_state_fields R i s) as (_ & Hbs & Hbm & Hc & He).
  pose proof (inv_epochs _ _ _ _ _ I) as Hi.
  pose proof (inv_count _ _ _ _ _ I) as Hn.
  set (t := scored_state R i s) in *.
  destruct (Qlt_bool (best_score t) (epoch_score R i s)) eqn:Hlt.
  - rewrite track_best_improve by done.
    split; cbn; [lia | done | lia |].
    right. exists (S i). split; [lia|]. split; [|done]. by apply epoch_score_at.
  - destruct (decide (count t + 1 = tol)) as [Ht|Ht].
    + destruct (inv_best _ _ _ _ _ I) as [[Hb Hm]|(j & Hj & Hb & Hm)].
      * rewrite track_best_stop_unset by congruence. cbn. split; [done|]. split; [lia | congruence].
      * rewrite track_best_stop by congruence.
        split; cbn; [lia | done | lia |].
        right. exists j. split; [lia|]. split; congruence.
    + rewrite track_best_wait by done.
      split; cbn; [lia | done | lia |].
      destruct (inv_best _ _ _ _ _ I) as [[Hb Hm]|(j & Hj & Hb & Hm)].
      * left. split; congruence.
      * right. exists j. split; [lia|]. split; congruence.
Qed.

Lemma for_range_inv n : forall i s,
  loop_inv R model h0 i s ->
  match for_range R model tol i n s with
  | Next s' => loop_inv R model h0 (i + n) s'
  | Break s' => exists j, (i < j <= i + n)%nat /\ loop_inv R model h0 j s'
  | Throw e s' =>
      e = TypeError /\ (i < epochs_done s' <= i + n)%nat /\ best_model s' = None
  end.
Proof.
  induction n as [|n IH]; intros i s I; cbn.
  - by rewrite Nat.add_0_r.
  - pose proof (epoch_body_inv i s I) as Hstep.
    destruct (epoch_body R model tol i s) as [s'|s'|e s'].
    + specialize (IH (S i) s' Hstep).
      destruct (for_range R model tol (S i) n s') as [s2|s2|e s2].
      * by rewrite Nat.add_succ_r.
      * destruct IH as (j & Hj & Ij). exists j. split; [lia | done].
      * destruct IH as (-> & Hj & Hm). split; [done|]. split; [lia | done].
    + exists (S i). split; [lia | done].
    + destruct Hstep as (-> & He & Hm). split; [done|]. split; [lia | done].
Qed.

(** Once a snapshot exists and no later score exceeds the best one,
    the counter runs up to [tol] and the loop is left. *)
Lemma for_range_stall n : forall i s,
  loop_inv R model h0 i s ->
  best_model s = Some (get_state_dict model) ->
  count s < tol ->
  (forall j, (i < j <= i + n)%nat -> Z.of_nat j <= Z.of_nat i + (tol - count s) ->
             (score_at R h0 j <= best_score s)%Q) ->
  (Z.of_nat n < tol - count s ->
     exists s', for_range R model tol i n s = Next s' /\
                epochs_done s' = (i + n)%nat /\
                best_model s' = Some (get_state_dict model)) /\
  (tol - count s <= Z.of_nat n ->
     exists s', for_range R model tol i n s = Break s' /\
                Z.of_nat (epochs_done s') = Z.of_nat i + (tol - count s) /\
                best_model s' = Some (get_state_dict model)).
Proof.
  induction n as [|n IH]; intros i s I Hm Hc Hle.
  - split; [|lia]. intros _. exists s. cbn.
    rewrite Nat.add_0_r. by rewrite (inv_epochs _ _ _ _ _ I).
  - cbn [for_range]. rewrite epoch_body_eq by done.
    destruct (scored_state_fields R i s) as (_ & Hbs & Hbm & Hct & He).
    pose proof (inv_epochs _ _ _ _ _ I) as Hi.
    assert (Hlt : Qlt_bool (best_score (scored_state R i s)) (epoch_score R i s) = false).
    { apply Qlt_bool_false. rewrite Hbs, (epoch_score_at i s I). apply Hle; lia. }
    pose proof (epoch_body_inv i s I) as Hstep.
    rewrite epoch_body_eq in Hstep by done.
    destruct (decide (count (scored_state R i s) + 1 = tol)) as [Ht|Ht].
    + rewrite track_best_stop in * by congruence.
      split; [lia|]. intros _. eexists. split; [done|]. cbn. split; [lia | congruence].
    + rewrite track_best_wait in * by done.
      set (s1 := set_count _ _) in *.
      destruct (IH (S i) s1 Hstep) as [IHn IHb].
      * cbn. congruence.
      * cbn. lia.
      * intros j Hj Hj'. cbn. rewrite Hbs. apply Hle; [lia|]. cbn in Hj'. lia.
      * cbn in IHn, IHb. split.
        -- intros Hn. destruct IHn as (s' & -> & He' & Hm'); [lia|].
           exists s'. split; [done|]. split; [lia | done].
        -- intros Hn. destruct IHb as (s' & -> & He' & Hm'); [lia|].
           exists s'. split; [done|]. split; [lia | done].
Qed.
End Loop.

Lemma for_range_empty_loader R model tol i n s :
  len_train R = 0 \/ len_valid R = 0 ->
  exists e s', for_range R model tol i (S n) s = Throw e s'.
Proof.
  intros H. cbn. unfold epoch_body.
  destruct (len_train R =? 0) eqn:El; [by eauto|].
  destruct (train_pass R i (st_heap s)) as [h1 c].
  destruct H as [H|H]; [apply Z.eqb_neq in El; lia|].
  apply Z.eqb_eq in H as ->. by eauto.
Qed.

Lemma finish_snapshot model s :
  best_model s = Some (get_state_dict model) ->
  finish model s = Returned (info TrainingCompleted s).
Proof.
  intros H. unfold finish. cbn. by rewrite H, load_state_dict_alias.
Qed.

Lemma finish_unset model s :
  best_model s = None -> finish model s = Raised TypeError (info TrainingCompleted s).
Proof. intros H. unfold finish. cbn. by rewrite H. Qed.

(** The restore is void: whenever [train] returns, the storage is the one
    the last executed training pass left behind. *)
Lemma train_returns_last_epoch R model h epochs tol s :
  train R model h epochs tol = Returned s ->
  st_heap s = heap_after R h (epochs_done s).
Proof.
  unfold train. intros H.
  destruct (decide (len_train R = 0 \/ len_valid R = 0)) as [He|Hne].
  - destruct (Z.to_nat epochs) as [|n].
    + cbn [for_range] in H. by rewrite finish_unset in H.
    + destruct (for_range_empty_loader R model tol 0 n (init_state h) He) as (e & s' & Hr).
      by rewrite Hr in H.
  - assert (Hl : len_train R <> 0) by tauto.
    assert (Hm : len_valid R <> 0) by tauto.
    pose proof (for_range_inv R model tol h Hl Hm (Z.to_nat epochs) 0 _
                  (init_state_inv R model h)) as I.
    destruct (for_range R model tol 0 (Z.to_nat epochs) (init_state h)) as [s'|s'|e s'];
      [| destruct I as (j & _ & I) | done].
    all: destruct (inv_best _ _ _ _ _ I) as [[_ Hb]|(k & _ & _ & Hb)];
      [by rewrite finish_unset in H|].
    all: rewrite finish_snapshot in H by done; injection H as <-; cbn.
    all: by rewrite (inv_heap _ _ _ _ _ I), (inv_epochs _ _ _ _ _ I).
Qed.

Lemma finish_epochs_done model s :
  epochs_done (final_state (finish model s)) = epochs_done s.
Proof.
  unfold finish. by destruct (load_state_dict _ _ _).
Qed.

(** While every score is 0 nothing is ever recorded. *)
Lemma for_range_all_zero R model tol h :
  len_train R <> 0 -> len_valid R <> 0 ->
  forall n i s,
    loop_inv R model h i s -> best_score s = 0%Q -> best_model s = None ->
    (forall j, (i <= j < i + n)%nat -> valid_pass R j (heap_after R h (S j)) = 0) ->
    match for_range R model tol i n s with
    | Next s' => best_model s' = None /\ epochs_done s' = (i + n)%nat
    | Break _ => False
    | Throw e s' => e = TypeError /\ best_model s' = None /\ (i < epochs_done s')%nat
    end.
Proof.
  intros Hl Hm. induction n as [|n IH]; intros i s I Hb Hnone Hz; cbn [for_range].
  - split; [done|]. rewrite (inv_epochs _ _ _ _ _ I). lia.
  - pose proof (epoch_body_inv R model tol h Hl Hm i s I) as Hstep.
    rewrite epoch_body_eq in * by done.
    destruct (scored_state_fields R i s) as (_ & Hbs & Hbm & Hct & He).
    assert (Hlt : Qlt_bool (best_score (scored_state R i s)) (epoch_score R i s) = false).
    { rewrite Hbs, Hb, (epoch_score_at R model h i s I). unfold score_at. cbn.
      rewrite Hz by lia. apply score_of_zero. }
    destruct (decide (count (scored_state R i s) + 1 = tol)) as [Ht|Ht].
    + rewrite track_best_stop_unset by congruence. cbn.
      split; [done|]. split; [congruence|]. rewrite He, (inv_epochs _ _ _ _ _ I). lia.
    + rewrite track_best_wait in * by done.
      set (s1 := set_count _ _) in *.
      specialize (IH (S i) s1 Hstep).
      destruct (for_range R model tol (S i) n s1) as [s'|s'|e s'].
      * destruct IH as [IH1 IH2]; [cbn; congruence..| |].
        { intros j Hj. apply Hz. lia. }
        split; [done | lia].
      * apply IH; [cbn; congruence..|]. intros j Hj. apply Hz. lia.
      * destruct IH as (-> & IH1 & IH2); [cbn; congruence..| |].
        { intros j Hj. apply Hz. lia. }
        split; [done|]. split; [done | lia].
Qed.

Lemma train_all_zero R model h (epochs tol : Z) :
  1 <= epochs -> len_train R <> 0 -> len_valid R <> 0 ->
  (forall j, Z.of_nat j < epochs -> valid_pass R j (heap_after R h (S j)) = 0) ->
  exists s, train R model h epochs tol = Raised TypeError s /\
            best_model s = None /\ (1 <= epochs_done s)%nat.
Proof.
  intros He Hl Hm Hz. unfold train.
  pose proof (for_range_all_zero R model tol h Hl Hm (Z.to_nat epochs) 0 (init_state h)
                (init_state_inv R model h) eq_refl eq_refl) as H.
  destruct (for_range R model tol 0 (Z.to_nat epochs) (init_state h)) as [s'|s'|e s'].
  - destruct H as [Hn Hd]; [intros j Hj; apply Hz; lia|].
    rewrite finish_unset by done. eexists. split; [done|]. cbn. split; [done | lia].
  - destruct H. intros j Hj. apply Hz. lia.
  - destruct H as (-> & Hn & Hd); [intros j Hj; apply Hz; lia|].
    exists s'. split; [done|]. split; [done | lia].
Qed.

Lemma train_zero_epochs R model h tol :
  train R model h 0 tol =
    Raised TypeError
      {| st_heap := h; best_score := 0%Q; best_model := None; count := 0;
         epochs_done := 0; st_log := [TrainingStarted; TrainingCompleted] |}.
Proof. reflexivity. Qed.

Section Reach.
Context (R : epoch_runner) (model : module) (tol : Z) (h0 : heap).
Hypothesis train_nonempty : len_train R <> 0.
Hypothesis valid_nonempty : len_valid R <> 0.

(** At an epoch that sets a new best the loop records a snapshot. *)
Lemma new_best_improves i s :
  loop_inv R model h0 i s -> sets_new_best R h0 (S i) ->
  Qlt_bool (best_score (scored_state R i s)) (epoch_score R i s) = true.
Proof.
  intros I [Hpos Hrec]. destruct (scored_state_fields R i s) as (_ & -> & _).
  rewrite (epoch_score_at R model h0 i s I). apply Qlt_bool_true.
  destruct (inv_best _ _ _ _ _ I) as [[-> _]|(j & Hj & -> & _)]; [done|].
  apply Hrec. lia.
Qed.

Lemma init_state_count : count_inv R h0 0 (init_state h0).
Proof. split; cbn; [lia|]. intros j Hj. lia. Qed.

(** As long as every [tol] consecutive epochs contain one that sets a
    new best, the loop goes on. *)
Lemma for_range_reaches (k : nat) :
  1 <= tol ->
  (forall j, (j < k)%nat -> tol <= Z.of_nat j ->
     exists i, Z.of_nat j - tol < Z.of_nat i <= Z.of_nat j /\ sets_new_best R h0 i) ->
  forall n i s,
    loop_inv R model h0 i s -> count_inv R h0 i s -> (i + n < k)%nat ->
    exists s', for_range R model tol i n s = Next s' /\
               loop_inv R model h0 (i + n) s' /\ count_inv R h0 (i + n) s'.
Proof.
  intros Htol Hwin. induction n as [|n IH]; intros i s I [Hle Hnone] Hk; cbn [for_range].
  - exists s. rewrite Nat.add_0_r. split; [done|]. split; [done|]. by split.
  - pose proof (epoch_body_inv R model tol h0 train_nonempty valid_nonempty i s I) as Hstep.
    rewrite epoch_body_eq in * by done.
    destruct (scored_state_fields R i s) as (_ & Hbs & Hbm & Hct & He).
    destruct (Qlt_bool (best_score (scored_state R i s)) (epoch_score R i s)) eqn:Hlt.
    + rewrite track_best_improve by done. rewrite track_best_improve in Hstep by done.
      destruct (IH (S i) _ Hstep) as (s' & -> & I' & C'); [|lia|].
      { split; cbn; [lia|]. intros j Hj. lia. }
      exists s'. by rewrite Nat.add_succ_r.
    + assert (Hno : ~ sets_new_best R h0 (S i)).
      { intros Hnew. rewrite (new_best_improves i s I Hnew) in Hlt. done. }
      assert (Hwindow : forall j,
                Z.of_nat (S i) - (count s + 1) < Z.of_nat j <= Z.of_nat (S i) ->
                ~ sets_new_best R h0 j).
      { intros j Hj. destruct (decide (j = S i)) as [->|]; [done|].
        apply Hnone. lia. }
      assert (Hgo : count (scored_state R i s) + 1 <> tol).
      { rewrite Hct. intros Hstop.
        destruct (Hwin (S i)) as (j & Hj & Hnew); [lia | lia |].
        apply (Hwindow j); [lia | done]. }
      rewrite track_best_wait by done. rewrite track_best_wait in Hstep by done.
      destruct (IH (S i) _ Hstep) as (s' & -> & I' & C'); [|lia|].
      { split; cbn; rewrite Hct; [lia | done]. }
      exists s'. by rewrite Nat.add_succ_r.
Qed.
End Reach.

Lemma early_stop_after_new_best R model h (epochs tol : Z) (k : nat) :
  1 <= tol -> len_train R <> 0 -> len_valid R <> 0 ->
  (1 <= k)%nat -> Z.of_nat k <= epochs ->
  sets_new_best R h k ->
  (forall j, (j < k)%nat -> tol <= Z.of_nat j ->
     exists i, Z.of_nat j - tol < Z.of_nat i <= Z.of_nat j /\ sets_new_best R h i) ->
  (forall j, (k < j)%nat -> Z.of_nat j <= Z.of_nat k + tol -> Z.of_nat j <= epochs ->
             (score_at R h j <= score_at R h k)%Q) ->
  exists s, train R model h epochs tol = Returned s /\
            Z.of_nat (epochs_done s) = Z.min (Z.of_nat k + tol) epochs.
Proof.
  intros Htol Hl Hm Hk Hcap Hnew Hwin Hlater. unfold train.
  destruct k as [|k']; [lia|].
  set (n := Z.to_nat epochs) in *.
  assert (Hn : n = (k' + S (n - S k'))%nat) by lia.
  rewrite Hn, for_range_split.
  destruct (for_range_reaches R model tol h Hl Hm (S k') Htol Hwin k' 0 (init_state h)
              (init_state_inv R model h) (init_state_count R h))
    as (s1 & -> & I & _); [lia|].
  cbn [Nat.add] in *. cbn [for_range].
  pose proof (epoch_body_inv R model tol h Hl Hm k' s1 I) as Hstep.
  rewrite epoch_body_eq in * by done.
  pose proof (new_best_improves R model h k' s1 I Hnew) as Hlt.
  rewrite track_best_improve by done. rewrite track_best_improve in Hstep by done.
  set (s2 := set_count 0 _) in *.
  destruct (for_range_stall R model tol h Hl Hm (n - S k') (S k') s2 Hstep) as [Hnext Hbreak].
  - done.
  - cbn. lia.
  - intros j Hj Hj'. cbn. rewrite (epoch_score_at R model h k' s1 I).
    cbn in Hj'. apply Hlater; lia.
  - cbn in Hnext, Hbreak.
    destruct (decide (Z.of_nat (n - S k') < tol - 0)) as [Hc|Hc].
    + destruct Hnext as (s' & -> & He' & Hm'); [done|].
      rewrite finish_snapshot by done. eexists. split; [done|]. cbn. lia.
    + destruct Hbreak as (s' & -> & He' & Hm'); [lia|].
      rewrite finish_snapshot by done. eexists. split; [done|]. cbn. lia.
Qed.

Section Best.
Context (R : epoch_runner) (model : module) (tol : Z) (h0 : heap).
Hypothesis train_nonempty : len_train R <> 0.
Hypothesis valid_nonempty : len_valid R <> 0.

Lemma init_state_best : best_inv R h0 0 (init_state h0).
Proof.
  split; cbn.
  - apply Qle_refl.
  - intros j Hj. lia.
  - done.
Qed.

Lemma epoch_body_best i s :
  loop_inv R model h0 i s -> best_inv R h0 i s ->
  best_inv R h0 (S i) (control_state (epoch_body R model tol i s)).
Proof.
  intros I [Hnn Hup Hfirst]. rewrite epoch_body_eq by done.
  destruct (scored_state_fields R i s) as (_ & Hbs & Hbm & Hc & He).
  pose proof (epoch_score_at R model h0 i s I) as Hscore.
  set (t := scored_state R i s) in *.
  destruct (Qlt_bool (best_score t) (epoch_score R i s)) eqn:Hlt.
  - rewrite track_best_improve by done. apply Qlt_bool_true in Hlt.
    rewrite Hbs, Hscore in Hlt.
    assert (Hall : forall j, (1 <= j <= i)%nat -> (score_at R h0 j < score_at R h0 (S i))%Q).
    { intros j Hj. eapply Qle_lt_trans; [by apply Hup | done]. }
    split; cbn; rewrite Hscore.
    + apply Qlt_le_weak. by eapply Qle_lt_trans.
    + intros j Hj. destruct (decide (j = S i)) as [->|]; [apply Qle_refl|].
      apply Qlt_le_weak, Hall. lia.
    + intros _. exists (S i). split; [lia|]. split; [done|]. split.
      * by eapply Qle_lt_trans.
      * intros j Hj. apply Hall. lia.
  - apply Qlt_bool_false in Hlt. rewrite Hbs, Hscore in Hlt.
    assert (Hkeep : best_inv R h0 (S i) t).
    { split.
      - by rewrite Hbs.
      - intros j Hj. rewrite Hbs. destruct (decide (j = S i)) as [->|]; [done|].
        apply Hup. lia.
      - rewrite Hbm, Hbs. intros Hsome.
        destruct (Hfirst Hsome) as (k & Hk & Hrest). exists k. split; [lia | done]. }
    destruct Hkeep as [Hnn' Hup' Hfirst'].
    unfold track_best. apply Qlt_bool_false in Hlt.
    rewrite Hbs, Hscore. rewrite Hlt. cbn.
    destruct (count t + 1 =? tol); [destruct (load_state_dict _ _ _)|]; by split.
Qed.

Lemma for_range_best n : forall i s,
  loop_inv R model h0 i s -> best_inv R h0 i s ->
  match for_range R model tol i n s with
  | Next s' => best_inv R h0 (i + n) s'
  | Break s' => best_inv R h0 (epochs_done s') s'
  | Throw _ _ => True
  end.
Proof.
  induction n as [|n IH]; intros i s I Hb; cbn [for_range].
  - by rewrite Nat.add_0_r.
  - pose proof (epoch_body_inv R model tol h0 train_nonempty valid_nonempty i s I) as Hstep.
    pose proof (epoch_body_best i s I Hb) as Hbest.
    destruct (epoch_body R model tol i s) as [s'|s'|e s']; cbn in Hbest; [| |done].
    + specialize (IH (S i) s' Hstep Hbest). by rewrite Nat.add_succ_r.
    + by rewrite (inv_epochs _ _ _ _ _ Hstep).
Qed.
End Best.

(** An empty loader stops the first iteration with the state it found,
    but for the training pass that ran before an empty validation
    loader is met. *)
Lemma for_range_empty_epochs_done R model tol i n s :
  len_train R = 0 \/ len_valid R = 0 ->
  exists s', for_range R model tol i (S n) s = Throw ZeroDivisionError s' /\
             epochs_done s' = epochs_done s.
Proof.
  intros H. cbn. unfold epoch_body.
  destruct (len_train R =? 0) eqn:El; [by eauto|].
  destruct (train_pass R i (st_heap s)) as [h1 c].
  destruct H as [H|H]; [apply Z.eqb_neq in El; lia|].
  apply Z.eqb_eq in H as ->. by eauto.
Qed.

(** ** The training controller *)

(** C1.  The claim: whenever [train] returns, the parameters of the model
    are the snapshot recorded at the epoch with the highest validation
    score, not the raw parameters of the last epoch.  On the run of the
    specification's own scenario (at most 10 epochs, tolerance 2,
    validation scores 50, 40, 30) [train] returns after epoch 3 with
    best score 50, reached at epoch 1, where the parameter held [1];
    after return the parameter holds [3], the value the third training
    pass left: the recorded state dictionary shares its storage with
    the model, so restoring it changes nothing. *)
Theorem restored_parameters_are_last_epoch :
  let R := scripted_runner [5; 4; 3] in
  exists s,
    train R demo_model demo_heap 10 2 = Returned s /\
    epochs_done s = 3%nat /\
    best_score s = score_at R demo_heap 1 /\
    (forall j, (1 <= j <= 3)%nat -> (score_at R demo_heap j <= score_at R demo_heap 1)%Q) /\
    parameter_values demo_model (heap_after R demo_heap 1) = {[ "fc.0.weight"%string := [1%Q] ]} /\
    parameter_values demo_model (heap_after R demo_heap 3) = {[ "fc.0.weight"%string := [3%Q] ]} /\
    parameter_values demo_model (st_heap s) = {[ "fc.0.weight"%string := [3%Q] ]}.
Proof.
  intros R. eexists. split; [vm_compute; reflexivity|].
  split; [reflexivity|]. split; [vm_compute; reflexivity|]. split.
  - intros j Hj. assert (j = 1 \/ j = 2 \/ j = 3)%nat as [-> | [-> | ->]] by lia;
      vm_compute; discriminate.
  - split; [|split]; vm_compute; reflexivity.
Qed.

(** C2, as stated, fails.  When every score is 0, epoch 1 has the best
    score and no later epoch exceeds it, yet with tolerance 2 the loop
    is left after epoch 2, not 3, and [train] raises: a score of 0 never
    exceeds the initial best.  And when the best score of the sequence
    50, 40, 30, 90, 10, 10 comes at epoch 4, the run has ended after
    epoch 3. *)
Lemma best_epoch_alone_does_not_fix_the_stop :
  (let R := scripted_runner [0; 0; 0; 0] in
   (forall j, (1 <= j <= 10)%nat -> (score_at R demo_heap j <= score_at R demo_heap 1)%Q) /\
   exists s, train R demo_model demo_heap 10 2 = Raised TypeError s /\
             epochs_done s = 2%nat /\
             Z.of_nat (epochs_done s) <> Z.min (Z.of_nat 1 + 2) 10) /\
  (let R := scripted_runner [5; 4; 3; 9; 1; 1] in
   (forall j, (1 <= j <= 6)%nat -> (score_at R demo_heap j <= score_at R demo_heap 4)%Q) /\
   exists s, train R demo_model demo_heap 6 2 = Returned s /\
             epochs_done s = 3%nat /\
             Z.of_nat (epochs_done s) <> Z.min (Z.of_nat 4 + 2) 6).
Proof.
  split; intros R; (split; [|eexists; split; [vm_compute; reflexivity|]; by split]).
  - intros j Hj. do 11 (destruct j as [|j]; [try lia; vm_compute; discriminate|]). lia.
  - intros j Hj. do 7 (destruct j as [|j]; [try lia; vm_compute; discriminate|]). lia.
Qed.

(** C2, as amended.  Let [epochs >= 1] and [tol >= 1], both loaders be
    non-empty, and let epoch [k <= epochs] set a new best: its score
    strictly exceeds 0 and the score of every earlier epoch.  If every
    [tol] consecutive epochs before [k] contain an epoch that sets a new
    best, and none of the [tol] epochs after [k] (as far as the cap
    allows) strictly exceeds the score of [k], then [train] returns
    after epoch [min (k + tol) epochs].  The counter is reset to 0
    exactly when the score strictly exceeds the best one seen so far;
    otherwise, a tie included, it grows by one, and the loop is left in
    that very iteration exactly when it has reached [tol]. *)
Theorem early_stopping_epoch R model h (epochs tol : Z) (k : nat) :
  1 <= epochs -> 1 <= tol ->
  len_train R <> 0 -> len_valid R <> 0 ->
  (1 <= k)%nat -> Z.of_nat k <= epochs ->
  sets_new_best R h k ->
  (forall j, (j < k)%nat -> tol <= Z.of_nat j ->
     exists i, Z.of_nat j - tol < Z.of_nat i <= Z.of_nat j /\ sets_new_best R h i) ->
  (forall j, (k < j)%nat -> Z.of_nat j <= Z.of_nat k + tol -> Z.of_nat j <= epochs ->
             (score_at R h j <= score_at R h k)%Q) ->
  (forall score s, 0 <= count s ->
     ((best_score s < score)%Q <->
      count (control_state (track_best model tol score s)) = 0) /\
     ((score <= best_score s)%Q ->
      count (control_state (track_best model tol score s)) = count s + 1 /\
      (leaves_loop (track_best model tol score s) = true <-> count s + 1 = tol))) /\
  (forall i n s, leaves_loop (epoch_body R model tol i s) = true ->
     for_range R model tol i (S n) s = epoch_body R model tol i s) /\
  (exists s, train R model h epochs tol = Returned s /\
             Z.of_nat (epochs_done s) = Z.min (Z.of_nat k + tol) epochs).
Proof.
  intros _ Htol Hl Hm Hk Hcap Hnew Hwin Hlater. split; [|split].
  - intros score s Hc.
    assert (Hstall : (score <= best_score s)%Q ->
      count (control_state (track_best model tol score s)) = count s + 1 /\
      (leaves_loop (track_best model tol score s) = true <-> count s + 1 = tol)).
    { intros Hle. apply Qlt_bool_false in Hle. unfold track_best. rewrite Hle. cbn.
      destruct (count s + 1 =? tol) eqn:E.
      - apply Z.eqb_eq in E. destruct (load_state_dict _ _ _); cbn; by split.
      - apply Z.eqb_neq in E. cbn. split; [done|]. split; [done | tauto]. }
    split; [|done]. split.
    + intros Hlt. apply Qlt_bool_true in Hlt. by rewrite track_best_improve.
    + intros H0. destruct (Qlt_le_dec (best_score s) score) as [|Hle]; [done|].
      destruct (Hstall Hle) as [Hcount _]. lia.
  - intros i n s Hleave. cbn [for_range].
    by destruct (epoch_body R model tol i s).
  - by apply early_stop_after_new_best.
Qed.

(** A run with scores 50, 40, 70, 60, 60, at most 10 epochs and
    tolerance 2: epoch 3 sets the last new best, the epoch before it
    follows the new best of epoch 1, and the run ends after epoch 5. *)
Lemma early_stopping_epoch_witness :
  exists s, train (scripted_runner [5; 4; 7; 6; 6]) demo_model demo_heap 10 2 = Returned s /\
            Z.of_nat (epochs_done s) = Z.min (Z.of_nat 3 + 2) 10.
Proof.
  refine (proj2 (proj2
    (early_stopping_epoch (scripted_runner [5; 4; 7; 6; 6]) demo_model demo_heap 10 2 3
       _ _ _ _ _ _ _ _ _))).
  - lia.
  - lia.
  - cbn. lia.
  - cbn. lia.
  - lia.
  - lia.
  - split; [vm_compute; reflexivity|].
    intros i Hi. assert (i = 1 \/ i = 2)%nat as [-> | ->] by lia; vm_compute; reflexivity.
  - intros j Hj Hj'. assert (j = 2)%nat as -> by lia. exists 1%nat. split; [lia|].
    split; [vm_compute; reflexivity|]. intros i Hi. lia.
  - intros j Hj Hj' _. assert (j = 4 \/ j = 5)%nat as [-> | ->] by lia;
      vm_compute; discriminate.
Defined.

(** The first scenario of the specification: three epochs, tolerance 2,
    scores 50, 70, 60.  The cap ends the run with the counter at 1 and
    the best score 70. *)
Example cap_reached_scenario :
  exists s,
    train (scripted_runner [5; 7; 6]) demo_model demo_heap 3 2 = Returned s /\
    epochs_done s = 3%nat /\ count s = 1 /\
    best_score s = score_at (scripted_runner [5; 7; 6]) demo_heap 2 /\
    last (st_log s) = Some TrainingCompleted /\
    EarlyStopping ∉ st_log s.
Proof.
  eexists. split; [vm_compute; reflexivity|].
  split; [reflexivity|]. split; [reflexivity|]. split; [vm_compute; reflexivity|].
  split; [reflexivity|]. cbn. rewrite !not_elem_of_cons. repeat split; try discriminate.
  apply not_elem_of_nil.
Qed.

(** C9.  With [epochs = 0] no epoch is run and no snapshot is recorded:
    [train] logs its two messages and raises when it restores the
    snapshot that was never set; the storage is untouched.  Nothing in
    [train] checks [epochs]. *)
Theorem train_zero_epochs_fails R model h tol :
  train R model h 0 tol =
    Raised TypeError
      {| st_heap := h; best_score := 0%Q; best_model := None; count := 0;
         epochs_done := 0; st_log := [TrainingStarted; TrainingCompleted] |}.
Proof. reflexivity. Qed.

Lemma score_of_eq_zero (c m : Z) : m <> 0 -> (score_of c m == 0)%Q -> c = 0.
Proof.
  intros Hm. unfold score_of, Qeq, Qdiv, Qmult, Qinv. cbn.
  destruct m as [|p|p]; cbn; [done|lia|lia].
Qed.

(** C10.  If [epochs >= 1] and every epoch of the run scores exactly 0,
    no snapshot is ever recorded, and [train] raises when it restores
    [None], at the early stop or after the last epoch, having run at
    least one epoch. *)
Theorem train_all_zero_scores_fails R model h (epochs tol : Z) :
  1 <= epochs -> len_train R <> 0 -> len_valid R <> 0 ->
  (forall j, (1 <= j)%nat -> Z.of_nat j <= epochs -> (score_at R h j == 0)%Q) ->
  exists s, train R model h epochs tol = Raised TypeError s /\
            best_model s = None /\ (1 <= epochs_done s)%nat.
Proof.
  intros He Hl Hm Hz. apply train_all_zero; [done..|].
  intros j Hj. apply (score_of_eq_zero _ (len_valid R)); [done|].
  apply (Hz (S j)); lia.
Qed.

(** The statement at the run with scores 0, 0, 0, three epochs and
    tolerance 2, which stops early. *)
Lemma train_all_zero_scores_fails_witness :
  exists s, train (scripted_runner [0; 0; 0]) demo_model demo_heap 3 2 = Raised TypeError s /\
            best_model s = None /\ (1 <= epochs_done s)%nat.
Proof.
  apply (train_all_zero_scores_fails (scripted_runner [0; 0; 0]) demo_model demo_heap 3 2).
  - lia.
  - cbn. lia.
  - cbn. lia.
  - intros j Hj Hj'. assert (j = 1 \/ j = 2 \/ j = 3)%nat as [-> | [-> | ->]] by lia;
      vm_compute; reflexivity.
Defined.

Lemma scored_state_log R i s :
  exists c1 c2 q,
    st_log (scored_state R i s) =
      st_log s ++ [TrainEpoch (S i) c1 (len_train R); ValEpoch (S i) c2 (len_valid R) q].
Proof.
  unfold scored_state. destruct (train_pass R i (st_heap s)) as [h1 c]. cbn.
  eexists _, _, _. by rewrite <- app_assoc.
Qed.

(** Without room for the counter to meet [tol] the loop runs to its
    cap. *)
Lemma for_range_no_stop R model tol h0 n :
  len_train R <> 0 -> len_valid R <> 0 ->
  forall i s,
    loop_inv R model h0 i s -> count s <= Z.of_nat i ->
    tol <= 0 \/ Z.of_nat (i + n) < tol ->
    EarlyStopping ∉ st_log s ->
    exists s', for_range R model tol i n s = Next s' /\
               loop_inv R model h0 (i + n) s' /\ EarlyStopping ∉ st_log s'.
Proof.
  intros Hl Hm. induction n as [|n IH]; intros i s I Hc Htol Hlog; cbn [for_range].
  - exists s. by rewrite Nat.add_0_r.
  - pose proof (epoch_body_inv R model tol h0 Hl Hm i s I) as Hstep.
    rewrite epoch_body_eq in * by done.
    destruct (scored_state_fields R i s) as (_ & Hbs & Hbm & Hct & He).
    destruct (scored_state_log R i s) as (c1 & c2 & q & Hlg).
    pose proof (inv_count _ _ _ _ _ I) as Hc0.
    assert (Hlog' : EarlyStopping ∉ st_log (scored_state R i s)).
    { rewrite Hlg. rewrite not_elem_of_app. split; [done|].
      rewrite !not_elem_of_cons. repeat split; try discriminate. apply not_elem_of_nil. }
    destruct (Qlt_bool (best_score (scored_state R i s)) (epoch_score R i s)) eqn:Hlt.
    + rewrite track_best_improve by done. rewrite track_best_improve in Hstep by done.
      destruct (IH (S i) _ Hstep) as (s' & -> & I' & Hl'); [cbn; lia | lia | done |].
      exists s'. by rewrite Nat.add_succ_r.
    + rewrite track_best_wait by (done || lia).
      rewrite track_best_wait in Hstep by (done || lia).
      destruct (IH (S i) _ Hstep) as (s' & -> & I' & Hl'); [cbn; lia | lia | done |].
      exists s'. by rewrite Nat.add_succ_r.
Qed.

(** Whenever [train] returns, the storage is the one the last executed
    training pass left: restoring [best_model] changes no parameter,
    at the early stop or at the cap. *)
Theorem restore_changes_no_parameter R model h epochs tol s :
  train R model h epochs tol = Returned s ->
  st_heap s = heap_after R h (epochs_done s) /\
  parameter_values model (st_heap s) =
    parameter_values model (heap_after R h (epochs_done s)).
Proof.
  intros H. apply train_returns_last_epoch in H. by rewrite H.
Qed.

Lemma restore_changes_no_parameter_witness :
  exists s,
    train (scripted_runner [5; 7; 6]) demo_model demo_heap 3 2 = Returned s /\
    st_heap s = heap_after (scripted_runner [5; 7; 6]) demo_heap (epochs_done s) /\
    parameter_values demo_model (st_heap s) =
      parameter_values demo_model
        (heap_after (scripted_runner [5; 7; 6]) demo_heap (epochs_done s)).
Proof.
  eexists. split; [vm_compute; reflexivity|].
  apply (restore_changes_no_parameter (scripted_runner [5; 7; 6]) demo_model demo_heap 3 2).
  vm_compute. reflexivity.
Defined.

(** Whenever [train] returns, [best_score] is the largest score of the
    epochs that were run; it is positive and it is the score of the
    first epoch that reached it. *)
Theorem returned_best_score_is_first_maximum R model h epochs tol s :
  train R model h epochs tol = Returned s ->
  exists k, (1 <= k <= epochs_done s)%nat /\
    best_score s = score_at R h k /\
    (0 < score_at R h k)%Q /\
    (forall j, (1 <= j <= epochs_done s)%nat -> (score_at R h j <= score_at R h k)%Q) /\
    (forall j, (1 <= j < k)%nat -> (score_at R h j < score_at R h k)%Q).
Proof.
  unfold train. intros H.
  destruct (decide (len_train R = 0 \/ len_valid R = 0)) as [He|Hne].
  { destruct (Z.to_nat epochs) as [|n].
    - cbn [for_range] in H. by rewrite finish_unset in H.
    - destruct (for_range_empty_loader R model tol 0 n (init_state h) He) as (e & s' & Hr).
      by rewrite Hr in H. }
  assert (Hl : len_train R <> 0) by tauto.
  assert (Hm : len_valid R <> 0) by tauto.
  pose proof (for_range_inv R model tol h Hl Hm (Z.to_nat epochs) 0 _
                (init_state_inv R model h)) as I.
  pose proof (for_range_best R model tol h Hl Hm (Z.to_nat epochs) 0 _
                (init_state_inv R model h) (init_state_best R h)) as Hb.
  destruct (for_range R model tol 0 (Z.to_nat epochs) (init_state h)) as [s'|s'|e s'];
    [| destruct I as (j & _ & I) | done].
  all: pose proof (inv_epochs _ _ _ _ _ I) as He; rewrite ?He in Hb.
  all: destruct (inv_best _ _ _ _ _ I) as [[_ Hnone]|(k0 & _ & _ & Hsome)];
    [by rewrite finish_unset in H|].
  all: rewrite finish_snapshot in H by done; injection H as <-; cbn.
  all: destruct Hb as [_ Hup Hfirst].
  all: destruct Hfirst as (k & Hk & Hbest & Hpos & Hrec); [congruence|].
  all: exists k; rewrite Hbest in Hup; rewrite He; cbn [Nat.add] in *; eauto 10.
Qed.

Lemma returned_best_score_is_first_maximum_witness :
  let R := scripted_runner [5; 7; 6] in
  exists s k,
    train R demo_model demo_heap 3 2 = Returned s /\
    (1 <= k <= epochs_done s)%nat /\
    best_score s = score_at R demo_heap k /\
    (0 < score_at R demo_heap k)%Q /\
    (forall j, (1 <= j <= epochs_done s)%nat ->
       (score_at R demo_heap j <= score_at R demo_heap k)%Q) /\
    (forall j, (1 <= j < k)%nat -> (score_at R demo_heap j < score_at R demo_heap k)%Q).
Proof.
  intros R. eexists.
  assert (H : train R demo_model demo_heap 3 2 = Returned _)
    by (vm_compute; reflexivity).
  destruct (returned_best_score_is_first_maximum _ _ _ _ _ _ H) as (k & Hk).
  exists k. split; [exact H | exact Hk].
Defined.

(** With [tol <= 0], or with [tol] larger than [epochs], the counter can
    never meet [tol]: the loop runs all its [epochs] iterations and
    nothing is logged about an early stop. *)
Theorem no_early_stop_without_room R model h (epochs tol : Z) :
  len_train R <> 0 -> len_valid R <> 0 ->
  tol <= 0 \/ epochs < tol ->
  epochs_done (final_state (train R model h epochs tol)) = Z.to_nat epochs /\
  EarlyStopping ∉ st_log (final_state (train R model h epochs tol)).
Proof.
  intros Hl Hm Htol. unfold train.
  destruct (for_range_no_stop R model tol h (Z.to_nat epochs) Hl Hm 0 (init_state h)
              (init_state_inv R model h)) as (s' & -> & I & Hlog).
  - cbn. lia.
  - lia.
  - cbn. rewrite not_elem_of_cons. split; [done | apply not_elem_of_nil].
  - rewrite finish_epochs_done. split; [by rewrite (inv_epochs _ _ _ _ _ I)|].
    unfold finish. destruct (load_state_dict _ _ _); cbn.
    all: rewrite not_elem_of_app; split; [done|].
    all: rewrite not_elem_of_cons; split; [done | apply not_elem_of_nil].
Qed.

Lemma no_early_stop_without_room_witness :
  epochs_done (final_state (train (scripted_runner [5; 4; 3]) demo_model demo_heap 3 0))
    = Z.to_nat 3 /\
  EarlyStopping ∉ st_log (final_state (train (scripted_runner [5; 4; 3]) demo_model demo_heap 3 0)).
Proof.
  apply (no_early_stop_without_room (scripted_runner [5; 4; 3]) demo_model demo_heap 3 0).
  - cbn. lia.
  - cbn. lia.
  - lia.
Defined.

(** An empty training set: with [epochs >= 1] the first iteration divides
    the accumulated loss by 0 (line 88) before anything else has
    happened; no pass has run and the storage is untouched. *)
Theorem empty_training_set_raises_at_once R model h (epochs tol : Z) :
  1 <= epochs -> len_train R = 0 ->
  train R model h epochs tol = Raised ZeroDivisionError (init_state h).
Proof.
  intros He Hl. unfold train.
  destruct (Z.to_nat epochs) as [|n] eqn:En; [lia|].
  cbn. unfold epoch_body. by rewrite Hl.
Qed.

Lemma empty_training_set_raises_at_once_witness :
  train {| len_train := 0; len_valid := 10;
           train_pass := fun _ h => (h, 0); valid_pass := fun _ _ => 0 |}
    demo_model demo_heap 5 2 = Raised ZeroDivisionError (init_state demo_heap).
Proof.
  apply empty_training_set_raises_at_once.
  - lia.
  - reflexivity.
Defined.

(** An empty validation set: with [epochs >= 1] [train] raises at the
    division of line 112, after exactly one training pass has changed
    the storage and its result has been logged; no epoch is counted and
    no snapshot is recorded. *)
Theorem empty_validation_set_raises_after_one_pass R model h (epochs tol : Z) :
  1 <= epochs -> len_train R <> 0 -> len_valid R = 0 ->
  exists s, train R model h epochs tol = Raised ZeroDivisionError s /\
            st_heap s = heap_after R h 1 /\
            epochs_done s = 0%nat /\ best_model s = None /\
            st_log s = [TrainingStarted;
                        TrainEpoch 1 (train_pass R 0 h).2 (len_train R)].
Proof.
  intros He Hl Hm. unfold train.
  destruct (Z.to_nat epochs) as [|n] eqn:En; [lia|].
  cbn. unfold epoch_body. apply Z.eqb_neq in Hl as ->. cbn [init_state st_heap].
  destruct (train_pass R 0 h) as [h1 c]. rewrite Hm. cbn. eauto 10.
Qed.

Lemma empty_validation_set_raises_after_one_pass_witness :
  let R := {| len_train := 4; len_valid := 0;
              train_pass := fun _ h => (alter bump 0%nat h, 2);
              valid_pass := fun _ _ => 0 |} in
  exists s, train R demo_model demo_heap 5 2 = Raised ZeroDivisionError s /\
            st_heap s = heap_after R demo_heap 1 /\
            epochs_done s = 0%nat /\ best_model s = None /\
            st_log s = [TrainingStarted; TrainEpoch 1 (train_pass R 0 demo_heap).2 (len_train R)].
Proof.
  intros R. apply (empty_validation_set_raises_after_one_pass R demo_model demo_heap 5 2).
  - lia.
  - cbn. lia.
  - reflexivity.
Defined.

(** [train] never runs more epochs than [epochs], whether it returns or
    raises. *)
Theorem epochs_never_exceed_cap R model h (epochs tol : Z) :
  (epochs_done (final_state (train R model h epochs tol)) <= Z.to_nat epochs)%nat.
Proof.
  unfold train.
  destruct (decide (len_train R = 0 \/ len_valid R = 0)) as [He|Hne].
  - destruct (Z.to_nat epochs) as [|n].
    + cbn [for_range]. by rewrite finish_epochs_done.
    + destruct (for_range_empty_epochs_done R model tol 0 n (init_state h) He)
        as (s' & -> & Hs'). cbn. rewrite Hs'. cbn. lia.
  - assert (Hl : len_train R <> 0) by tauto.
    assert (Hm : len_valid R <> 0) by tauto.
    pose proof (for_range_inv R model tol h Hl Hm (Z.to_nat epochs) 0 _
                  (init_state_inv R model h)) as I.
    destruct (for_range R model tol 0 (Z.to_nat epochs) (init_state h)) as [s'|s'|e s'].
    + rewrite finish_epochs_done, (inv_epochs _ _ _ _ _ I). lia.
    + rewrite finish_epochs_done. destruct I as (j & Hj & I).
      rewrite (inv_epochs _ _ _ _ _ I). lia.
    + destruct I as (_ & Hj & _). cbn. lia.
Qed.

(** ** Creating objects *)

Section Monad.
Context {A B : Type}.

Lemma ensures_bind (c : M A) (k : A -> M B) w (mid : A -> world -> Prop)
    (post : B -> world -> Prop) :
  ensures c w mid ->
  (forall a w', mid a w' -> ensures (k a) w' post) ->
  ensures (Nn.bind c k) w post.
Proof.
  intros Hc Hk b w2. unfold Nn.bind.
  destruct (c w) as [[a|e] w1] eqn:E; [|done].
  apply (Hk a w1). by apply Hc.
Qed.

Lemma ensures_ret (a : A) w (post : A -> world -> Prop) :
  post a w -> ensures (ret a) w post.
Proof. intros H a' w' [= <- <-]. done. Qed.

Lemma ensures_of_option e (o : option A) w :
  ensures (of_option e o) w (fun a w' => o = Some a /\ w' = w).
Proof. destruct o; intros a' w'; cbn; [by intros [= <- <-] | done]. Qed.

Lemma returns_bind (c : M A) (k : A -> M B) w (mid : A -> world -> Prop)
    (post : B -> world -> Prop) :
  returns c w mid ->
  (forall a w', mid a w' -> returns (k a) w' post) ->
  returns (Nn.bind c k) w post.
Proof.
  intros (a & w' & Hc & Hmid) Hk. unfold returns, Nn.bind. rewrite Hc.
  by apply Hk.
Qed.

Lemma returns_ret (a : A) w (post : A -> world -> Prop) :
  post a w -> returns (ret a) w post.
Proof. intros H. by exists a, w. Qed.

Lemma returns_bind_ret (a : A) (k : A -> M B) w (post : B -> world -> Prop) :
  returns (k a) w post -> returns (Nn.bind (ret a) k) w post.
Proof. done. Qed.

(** A computation that returns, returns what it ensures. *)
Lemma returns_ensures (c : M A) w (post post' : A -> world -> Prop) :
  returns c w post -> ensures c w post' ->
  returns c w (fun a w' => post a w' /\ post' a w').
Proof. intros (a & w' & Hc & Hp) He. exists a, w'. auto. Qed.
End Monad.

Lemma trainable_weaken (h h' : heap) l : h ⊆ h' -> trainable h l -> trainable h' l.
Proof.
  intros Hsub (c & Hc & Hg). exists c. split; [|done]. by eapply lookup_weaken.
Qed.

Lemma frozen_weaken (h h' : heap) l : h ⊆ h' -> frozen h l -> frozen h' l.
Proof.
  intros Hsub (c & Hc & Hg). exists c. split; [|done]. by eapply lookup_weaken.
Qed.

Lemma allocates_nil w : allocates w [] w.
Proof. by split; [|split]. Qed.

Lemma allocates_app w ls1 w1 ls2 w2 :
  allocates w ls1 w1 -> allocates w1 ls2 w2 -> allocates w (ls1 ++ ls2) w2.
Proof.
  intros (Hs1 & Hr1 & Hf1) (Hs2 & Hr2 & Hf2). split; [by etrans|]. split; [congruence|].
  apply Forall_app. split.
  - eapply Forall_impl; [exact Hf1|]. intros l [Hn Ht]. split; [done|].
    by eapply trainable_weaken.
  - eapply Forall_impl; [exact Hf2|]. intros l [Hn Ht]. split; [|done].
    intros Hin. apply Hn. by eapply (subseteq_dom (objects w)).
Qed.

Lemma new_parameter_ensures v w :
  ensures (new_parameter v) w (fun l w' => allocates w [l] w').
Proof.
  intros l w'. unfold new_parameter, on_objects, alloc. intros [= <- <-].
  pose proof (is_fresh (dom (objects w))) as Hfresh.
  split; cbn.
  - apply insert_subseteq. by apply not_elem_of_dom.
  - split; [done|]. constructor; [|done]. split; [done|].
    eexists. by rewrite lookup_insert_eq.
Qed.

Lemma new_parameter_returns v w : returns (new_parameter v) w (fun _ _ => True).
Proof. unfold new_parameter, on_objects, alloc. by eexists _, _. Qed.

Lemma new_parameters_ensures ps : forall w,
  ensures (new_parameters ps) w
    (fun ls w' => allocates w ls.*2 w' /\ ls.*1 = ps.*1).
Proof.
  induction ps as [|[name v] ps IH]; intros w; cbn.
  - apply ensures_ret. split; [apply allocates_nil | done].
  - eapply ensures_bind; [apply new_parameter_ensures|]. intros l w1 H1.
    eapply ensures_bind; [apply IH|]. intros ls w2 [H2 Hn].
    apply ensures_ret. cbn. split; [|by f_equal].
    by apply (allocates_app w [l] w1).
Qed.

Lemma new_parameters_returns ps : forall w,
  returns (new_parameters ps) w (fun _ _ => True).
Proof.
  induction ps as [|[name v] ps IH]; intros w; cbn.
  - by apply returns_ret.
  - eapply returns_bind; [apply new_parameter_returns|]. intros l w1 _.
    eapply returns_bind; [apply IH|]. intros ls w2 _. by apply returns_ret.
Qed.

Lemma on_generator_ensures {A} (f : rng -> A * rng) w :
  ensures (on_generator f) w
    (fun a w' => a = (f (generator w)).1 /\ objects w' = objects w /\
                 records w' = records w /\ generator w' = (f (generator w)).2).
Proof.
  intros a w'. unfold on_generator. destruct (f (generator w)) as [a0 g].
  intros [= <- <-]. cbn. auto.
Qed.

Lemma on_generator_returns {A} (f : rng -> A * rng) w :
  returns (on_generator f) w (fun _ _ => True).
Proof.
  unfold returns, on_generator. destruct (f (generator w)) as [a0 g]. by eexists _, _.
Qed.

(** Drawing numbers creates no object and writes no record. *)
Lemma allocates_after_draw w w0 ls w' :
  objects w0 = objects w -> records w0 = records w ->
  allocates w0 ls w' -> allocates w ls w'.
Proof. unfold allocates. by intros -> ->. Qed.

Lemma nn_Linear_ensures init a b w :
  ensures (nn_Linear init a b) w
    (fun l w' => in_features l = a /\ out_features l = b /\
                 allocates w (linear_parameters l) w').
Proof.
  unfold nn_Linear. destruct ((a <? 0) || (b <? 0)); [done|].
  eapply ensures_bind; [apply on_generator_ensures|]. intros v w0 (_ & Ho & Hr & _).
  eapply ensures_bind; [apply new_parameter_ensures|]. intros lw w1 H1.
  eapply ensures_bind; [apply new_parameter_ensures|]. intros lb w2 H2.
  apply ensures_ret. cbn. split; [done|]. split; [done|].
  apply (allocates_after_draw w w0); [done..|].
  by apply (allocates_app w0 [lw] w1 [lb]).
Qed.

Lemma nn_Linear_returns init a b w :
  0 <= a -> 0 <= b -> returns (nn_Linear init a b) w (fun _ _ => True).
Proof.
  intros Ha Hb. unfold nn_Linear.
  replace ((a <? 0) || (b <? 0)) with false by lia.
  eapply returns_bind; [apply on_generator_returns|]. intros v w0 _.
  eapply returns_bind; [apply new_parameter_returns|]. intros lw w1 _.
  eapply returns_bind; [apply new_parameter_returns|]. intros lb w2 _.
  by apply returns_ret.
Qed.

Lemma index_nth (full : list Z) (j : nat) :
  (j < length full)%nat -> index full (Z.of_nat j) = Some (nth j full 0).
Proof.
  intros H. unfold index.
  replace ((0 <=? Z.of_nat j) && (Z.of_nat j <? Z.of_nat (length full))) with true by lia.
  rewrite Nat2Z.id. destruct (nth_lookup_or_length full j 0) as [H'|H']; [done | lia].
Qed.

Lemma index_from_end (full : list Z) (k : nat) :
  (1 <= k <= length full)%nat ->
  index full (- Z.of_nat k) = Some (nth (length full - k) full 0).
Proof.
  intros H. unfold index.
  replace ((0 <=? - Z.of_nat k) && (- Z.of_nat k <? Z.of_nat (length full)))
    with false by lia.
  replace ((- Z.of_nat (length full) <=? - Z.of_nat k) && (- Z.of_nat k <? 0))
    with true by lia.
  replace (Z.to_nat (Z.of_nat (length full) + - Z.of_nat k))
    with (length full - k)%nat by lia.
  destruct (nth_lookup_or_length full (length full - k) 0) as [H'|H']; [done | lia].
Qed.

Lemma nth_nonneg (full : list Z) (j : nat) :
  Forall (fun x => 0 <= x) full -> 0 <= nth j full 0.
Proof.
  intros H. rewrite nth_lookup. destruct (full !! j) as [x|] eqn:E; cbn; [|lia].
  by apply (Forall_lookup_1 _ _ _ _ H E).
Qed.

(** ** Head construction *)

Lemma index_Some_nth (full : list Z) (j : nat) a :
  index full (Z.of_nat j) = Some a -> a = nth j full 0.
Proof.
  unfold index.
  destruct ((0 <=? Z.of_nat j) && (Z.of_nat j <? Z.of_nat (length full))) eqn:E.
  - rewrite Nat2Z.id. intros H. symmetry. by apply nth_lookup_Some.
  - assert (Hneg : (- Z.of_nat (length full) <=? Z.of_nat j) && (Z.of_nat j <? 0) = false).
    { apply andb_false_iff. right. apply Z.ltb_ge. lia. }
    by rewrite Hneg.
Qed.

Section Head.
Context (init : linear_init) (full : list Z).

Lemma hidden_layers_ensures range : forall acc w,
  ensures (hidden_layers init full range acc) w
    (fun seq w' => exists new,
       seq = acc ++ new /\ map shape new = hidden_shapes full range /\
       allocates w (concat (map layer_parameters new)) w').
Proof.
  induction range as [|j range IH]; intros acc w; cbn [hidden_layers].
  - apply ensures_ret. exists []. rewrite app_nil_r. split; [done|].
    split; [done | apply allocates_nil].
  - eapply ensures_bind; [apply ensures_of_option|]. intros a ? [Ha ->].
    eapply ensures_bind; [apply ensures_of_option|]. intros b ? [Hb ->].
    eapply ensures_bind; [apply nn_Linear_ensures|]. intros l w1 (Hin & Hout & Hl).
    intros seq w2 Hrun. destruct (IH _ _ _ _ Hrun) as (new & -> & Hs & Hn).
    exists (Linear l :: ReLU :: new). rewrite <- app_assoc. split; [done|].
    apply index_Some_nth in Ha as ->.
    replace (Z.of_nat j + 1) with (Z.of_nat (S j)) in Hb by lia.
    apply index_Some_nth in Hb as ->.
    split.
    + cbn. rewrite Hin, Hout. f_equal. f_equal. exact Hs.
    + by apply (allocates_app w (linear_parameters l) w1
                    (concat (map layer_parameters new)) w2).
Qed.

Lemma hidden_layers_returns range : forall acc w,
  Forall (fun x => 0 <= x) full ->
  Forall (fun j => S j < length full)%nat range ->
  returns (hidden_layers init full range acc) w (fun _ _ => True).
Proof.
  induction range as [|j range IH]; intros acc w Hfull Hr; cbn [hidden_layers].
  - by apply returns_ret.
  - apply Forall_cons in Hr as [Hj Hr].
    rewrite index_nth by lia.
    replace (Z.of_nat j + 1) with (Z.of_nat (S j)) by lia.
    rewrite index_nth by lia. cbn [of_option].
    do 2 apply returns_bind_ret.
    eapply returns_bind.
    { apply (nn_Linear_returns init (nth j full 0) (nth (S j) full 0));
        by apply nth_nonneg. }
    intros l w3 _. by apply IH.
Qed.
End Head.

Lemma hidden_shapes_shift a tl range :
  hidden_shapes (a :: tl) (map S range) = hidden_shapes tl range.
Proof.
  unfold hidden_shapes. induction range as [|j range IH]; [done|].
  cbn [map flat_map]. by rewrite IH.
Qed.

(** The loop of [net] builds what the specification describes. *)
Lemma head_of_profile_by_index (full : list Z) :
  (2 <= length full)%nat ->
  head_of_profile full =
    hidden_shapes full (seq 0 (length full - 2)) ++
    [LinearShape (nth (length full - 2) full 0) (nth (length full - 1) full 0)].
Proof.
  induction full as [|a [|b rest] IH]; cbn [length]; try lia.
  intros _. destruct rest as [|c rest]; [done|].
  change (head_of_profile (a :: b :: c :: rest))
    with (LinearShape a b :: ReLUShape :: head_of_profile (b :: c :: rest)).
  rewrite IH by (cbn; lia). cbn [length].
  replace (S (S (S (length rest))) - 2)%nat with (S (length rest)) by lia.
  replace (S (S (length rest)) - 2)%nat with (length rest) by lia.
  replace (S (S (S (length rest))) - 1)%nat with (S (S (length rest))) by lia.
  replace (S (S (length rest)) - 1)%nat with (S (length rest)) by lia.
  cbn [seq]. rewrite <- seq_shift.
  change (hidden_shapes (a :: b :: c :: rest) (0%nat :: map S (seq 0 (length rest))))
    with ([LinearShape a b; ReLUShape] ++
          hidden_shapes (a :: b :: c :: rest) (map S (seq 0 (length rest)))).
  by rewrite hidden_shapes_shift.
Qed.

Lemma build_head_ensures init F nc layers w :
  ensures (build_head init F nc layers) w
    (fun seq w' =>
       map shape seq = head_of_profile ([F] ++ layers ++ [nc]) /\
       allocates w (concat (map layer_parameters seq)) w').
Proof.
  unfold build_head. set (full := [F] ++ layers ++ [nc]).
  assert (Hlen : length full = S (S (length layers))).
  { unfold full. cbn. rewrite length_app. cbn. lia. }
  eapply ensures_bind; [apply hidden_layers_ensures|].
  intros seq w1 (new & -> & Hs & Hn). cbn [app] in *.
  eapply ensures_bind; [apply ensures_of_option|]. intros a ? [Ha ->].
  eapply ensures_bind; [apply ensures_of_option|]. intros b ? [Hb ->].
  eapply ensures_bind; [apply nn_Linear_ensures|]. intros l w2 (Hin & Hout & Hl).
  apply ensures_ret.
  change (-2) with (- Z.of_nat 2) in Ha. change (-1) with (- Z.of_nat 1) in Hb.
  rewrite index_from_end in Ha, Hb by lia.
  injection Ha as <-. injection Hb as <-.
  split.
  - rewrite map_app, Hs, head_of_profile_by_index by lia. cbn [map shape].
    by rewrite Hin, Hout.
  - rewrite map_app, concat_app.
    by apply (allocates_app w (concat (map layer_parameters new)) w1
                (linear_parameters l) w2).
Qed.

Lemma build_head_returns init F nc layers w :
  0 <= F -> 0 <= nc -> Forall (fun x => 0 <= x) layers ->
  returns (build_head init F nc layers) w (fun _ _ => True).
Proof.
  intros HF Hnc Hl. unfold build_head. set (full := [F] ++ layers ++ [nc]).
  assert (Hlen : length full = S (S (length layers))).
  { unfold full. cbn. rewrite length_app. cbn. lia. }
  assert (Hfull : Forall (fun x => 0 <= x) full).
  { unfold full. apply Forall_app. split; [by constructor|].
    apply Forall_app. split; [done | by constructor]. }
  eapply returns_bind.
  { apply hidden_layers_returns; [done|]. apply Forall_forall.
    intros j Hj. apply elem_of_seq in Hj. lia. }
  intros seq w1 _.
  change (-2) with (- Z.of_nat 2). change (-1) with (- Z.of_nat 1).
  rewrite !index_from_end by lia. cbn [of_option].
  do 2 apply returns_bind_ret.
  eapply returns_bind; [apply nn_Linear_returns; by apply nth_nonneg|].
  intros l w4 _. by apply returns_ret.
Qed.

(** ** The model adapter *)

Lemma head_of_profile_layout (full : list Z) :
  (2 <= length full)%nat ->
  length (head_of_profile full) = (2 * (length full - 2) + 1)%nat /\
  (forall i, (i <= length full - 2)%nat ->
     head_of_profile full !! (2 * i)%nat =
       Some (LinearShape (nth i full 0) (nth (S i) full 0))) /\
  (forall i, (i < length full - 2)%nat ->
     head_of_profile full !! (2 * i + 1)%nat = Some ReLUShape).
Proof.
  induction full as [|a [|b rest] IH]; cbn [length]; try lia.
  intros _. destruct rest as [|c rest].
  { cbn. split; [done|]. split; intros i Hi; [|lia].
    by replace i with 0%nat by lia. }
  change (head_of_profile (a :: b :: c :: rest))
    with (LinearShape a b :: ReLUShape :: head_of_profile (b :: c :: rest)).
  destruct IH as (Hlen & Hlin & Hrelu); [cbn; lia|]. cbn [length] in *.
  split; [cbn [length]; lia|]. split.
  - intros [|i] Hi; [done|].
    replace (2 * S i)%nat with (S (S (2 * i))) by lia. cbn [lookup list_lookup].
    rewrite Hlin by lia. done.
  - intros [|i] Hi; [done|].
    replace (2 * S i + 1)%nat with (S (S (2 * i + 1))) by lia. cbn [lookup list_lookup].
    apply Hrelu. lia.
Qed.

Lemma freeze_all_lookup ls : forall (h : heap) l,
  foldl (fun h l => set_requires_grad false l h) h ls !! l =
    if decide (l ∈ ls)
    then (fun c => {| data := data c; requires_grad := false |}) <$> h !! l
    else h !! l.
Proof.
  induction ls as [|l0 ls IH]; intros h l; cbn [foldl].
  - rewrite decide_False by set_solver. done.
  - rewrite IH. unfold set_requires_grad. rewrite lookup_alter.
    destruct (decide (l ∈ ls)), (decide (l0 = l)) as [->|].
    + rewrite decide_True by set_solver. by destruct (h !! l).
    + rewrite decide_True by set_solver. done.
    + rewrite decide_True by set_solver. done.
    + rewrite decide_False by set_solver. done.
Qed.

Lemma freeze_ensures model w :
  ensures (freeze model) w
    (fun _ w' =>
       records w' = records w /\
       forall l, objects w' !! l =
         if decide (l ∈ parameters model)
         then (fun c => {| data := data c; requires_grad := false |}) <$> objects w !! l
         else objects w !! l).
Proof.
  intros [] w'. unfold freeze, on_objects. intros [= <-]. cbn.
  split; [done|]. intros l. apply freeze_all_lookup.
Qed.

Lemma freeze_returns model w : returns (freeze model) w (fun _ _ => True).
Proof. unfold freeze, on_objects. by eexists _, _. Qed.

Lemma logger_info_ensures r w :
  ensures (logger_info r) w
    (fun _ w' => objects w' = objects w /\ records w' = records w ++ [r]).
Proof. intros [] w'. unfold logger_info. by intros [= <-]. Qed.

Lemma logger_info_returns r w : returns (logger_info r) w (fun _ _ => True).
Proof. unfold logger_info. by eexists _, _. Qed.

Lemma fc_in_features_ensures model w :
  ensures (fc_in_features model) w
    (fun F w' => w' = w /\ exists l, fc model = Some (Single l) /\ F = in_features l).
Proof.
  unfold fc_in_features. destruct (fc model) as [[l|seq]|]; [|done..].
  apply ensures_ret. eauto.
Qed.

Lemma instantiate_ensures init p w :
  ensures (instantiate init (Builder p)) w
    (fun model w' =>
       allocates w (parameters model) w' /\
       (trunk model).*1 = (trunk_weights p).*1 /\
       match fc_weights p with
       | Some (a, b, _, _) =>
           exists l, fc model = Some (Single l) /\ in_features l = a /\ out_features l = b
       | None => fc model = None
       end).
Proof.
  unfold instantiate.
  eapply ensures_bind; [apply on_generator_ensures|]. intros [] wg (_ & Ho & Hr & _).
  eapply ensures_bind; [apply new_parameters_ensures|]. intros t w1 [Ht Hn].
  destruct (fc_weights p) as [[[[a b] w0] b0]|].
  - eapply ensures_bind; [apply new_parameter_ensures|]. intros lw w2 H2.
    eapply ensures_bind; [apply new_parameter_ensures|]. intros lb w3 H3.
    apply ensures_ret. unfold parameters. cbn. split; [|eauto].
    apply (allocates_after_draw w wg); [done..|].
    apply (allocates_app wg _ w1); [done|].
    by apply (allocates_app w1 [lw] w2 [lb]).
  - apply ensures_ret. unfold parameters. cbn. rewrite app_nil_r.
    split; [|done]. by apply (allocates_after_draw w wg).
Qed.

Lemma instantiate_returns init p w :
  returns (instantiate init (Builder p)) w (fun _ _ => True).
Proof.
  unfold instantiate.
  eapply returns_bind; [apply on_generator_returns|]. intros [] wg _.
  eapply returns_bind; [apply new_parameters_returns|]. intros t w1 _.
  destruct (fc_weights p) as [[[[a b] w0] b0]|]; [|by apply returns_ret].
  eapply returns_bind; [apply new_parameter_returns|]. intros lw w2 _.
  eapply returns_bind; [apply new_parameter_returns|]. intros lb w3 _.
  by apply returns_ret.
Qed.

(** What [net] has done to a freshly instantiated network. *)
Lemma adapt_ensures init nc layers model w0 w1 :
  allocates w0 (parameters model) w1 ->
  ensures (adapt init nc layers model) w1
    (fun result w' =>
       trunk result = trunk model /\
       (exists l seq, fc model = Some (Single l) /\ fc result = Some (Sequential seq) /\
          map shape seq = head_of_profile ([in_features l] ++ layers ++ [nc])) /\
       Forall (frozen (objects w')) (trunk result).*2 /\
       Forall (trainable (objects w')) (head_parameters (fc result)) /\
       objects w0 ⊆ objects w' /\
       records w' = records w0 ++ [ModelCreationCompleted]).
Proof.
  intros (Hsub & Hrec & Hnew). unfold adapt.
  eapply ensures_bind; [apply freeze_ensures|]. intros [] w2 [Hr2 Hfrozen].
  eapply ensures_bind; [apply fc_in_features_ensures|]. intros F ? (-> & l & Hfc & ->).
  eapply ensures_bind; [apply build_head_ensures|].
  intros seq w3 (Hshape & Hs3 & Hr3 & Hhead).
  eapply ensures_bind; [apply logger_info_ensures|]. intros [] w4 [Ho4 Hr4].
  apply ensures_ret. cbn [trunk fc head_parameters]. rewrite Ho4.
  assert (Hkeep : objects w0 ⊆ objects w2).
  { apply map_subseteq_spec. intros i c Hi. rewrite Hfrozen.
    rewrite decide_False; [by eapply lookup_weaken|].
    intros Hin. rewrite Forall_forall in Hnew. destruct (Hnew i Hin) as [Hfresh _].
    apply Hfresh. apply elem_of_dom. eauto. }
  split; [done|]. split; [eauto|]. split; [|split; [|split]].
  - apply Forall_forall. intros i Hi. apply (frozen_weaken (objects w2)); [done|].
    assert (Hin : i ∈ parameters model) by (unfold parameters; set_solver).
    rewrite Forall_forall in Hnew. destruct (Hnew i Hin) as (_ & c & Hc & _).
    exists {| data := data c; requires_grad := false |}.
    rewrite Hfrozen, decide_True, Hc by done. done.
  - eapply Forall_impl; [exact Hhead|]. by intros i [_ Hi].
  - by etrans.
  - congruence.
Qed.

Lemma adapt_returns init nc layers model l w :
  fc model = Some (Single l) -> 0 <= in_features l -> 0 <= nc ->
  Forall (fun x => 0 <= x) layers ->
  returns (adapt init nc layers model) w (fun _ _ => True).
Proof.
  intros Hfc HF Hnc Hl. unfold adapt.
  eapply returns_bind; [apply freeze_returns|]. intros [] w1 _.
  unfold fc_in_features. rewrite Hfc. apply returns_bind_ret.
  eapply returns_bind; [by apply build_head_returns|]. intros seq w2 _.
  eapply returns_bind; [apply logger_info_returns|]. intros [] w3 _.
  by apply returns_ret.
Qed.

Lemma net_body_ensures models init model_name nc layers w :
  ensures (net_body models init model_name nc layers) w
    (fun result w' =>
       (exists p F, models !! model_name = Some (Builder p) /\
          (exists b w0 b0, fc_weights p = Some (F, b, w0, b0)) /\
          (trunk result).*1 = (trunk_weights p).*1 /\
          exists seq, fc result = Some (Sequential seq) /\
            map shape seq = head_of_profile ([F] ++ layers ++ [nc])) /\
       Forall (frozen (objects w')) (trunk result).*2 /\
       Forall (trainable (objects w')) (head_parameters (fc result)) /\
       objects w ⊆ objects w' /\
       records w' = records w ++ [ModelCreationStarted; ModelCreationCompleted]).
Proof.
  unfold net_body.
  eapply ensures_bind; [apply logger_info_ensures|]. intros [] w0 [Ho0 Hr0].
  eapply ensures_bind; [apply ensures_of_option|]. intros e ? [He ->].
  destruct e as [p|]; [|done].
  eapply ensures_bind; [apply instantiate_ensures|]. intros model w1 (Halloc & Hnames & Hfc).
  intros result w' Hrun.
  destruct (adapt_ensures init nc layers model w0 w1 Halloc result w' Hrun)
    as (Ht & (l & seq & Hl & Hseq & Hshape) & Hfrozen & Htrain & Hsub & Hrec).
  split; [|split; [done|split; [done|split]]].
  - exists p, (in_features l). split; [done|].
    destruct (fc_weights p) as [[[[a b] w0'] b0]|]; [|congruence].
    destruct Hfc as (l' & Hl' & Ha & Hb).
    assert (l' = l) as -> by congruence. subst a.
    split; [by eauto|]. split; [congruence|]. eauto.
  - by rewrite <- Ho0.
  - rewrite Hrec, Hr0, <- app_assoc. done.
Qed.

Lemma net_body_returns models init model_name nc layers w p F b w0 b0 :
  models !! model_name = Some (Builder p) -> fc_weights p = Some (F, b, w0, b0) ->
  0 <= F -> 0 <= nc -> Forall (fun x => 0 <= x) layers ->
  returns (net_body models init model_name nc layers) w (fun _ _ => True).
Proof.
  intros Hm Hfc HF Hnc Hl. unfold net_body, lookup_model.
  eapply returns_bind; [apply logger_info_returns|]. intros [] w1 _.
  rewrite Hm. apply returns_bind_ret.
  eapply returns_bind.
  { eapply returns_ensures; [apply instantiate_returns | apply instantiate_ensures]. }
  intros model w2 (_ & _ & _ & Hmodel). rewrite Hfc in Hmodel.
  destruct Hmodel as (l & Hl' & Ha & _).
  eapply adapt_returns; [done | lia | done..].
Qed.

Lemma holds_weaken (h h' : heap) l v : h ⊆ h' -> holds h l v -> holds h' l v.
Proof.
  unfold holds. intros Hsub H. destruct (h !! l) as [c|] eqn:Hc; [|done].
  by rewrite (lookup_weaken _ _ _ _ Hc Hsub).
Qed.

Lemma ensures_and {A} (c : M A) w (p q : A -> world -> Prop) :
  ensures c w p -> ensures c w q -> ensures c w (fun a w' => p a w' /\ q a w').
Proof. intros Hp Hq a w' H. split; [by apply Hp | by apply Hq]. Qed.

Lemma ensures_weaken {A} (c : M A) w (p q : A -> world -> Prop) :
  ensures c w p -> (forall a w', p a w' -> q a w') -> ensures c w q.
Proof. intros Hp Hpq a w' H. by apply Hpq, Hp. Qed.

(** A new parameter holds the numbers it was created with, and its
    creation draws no number. *)
Lemma new_parameter_holds v w :
  ensures (new_parameter v) w
    (fun l w' => holds (objects w') l v /\ generator w' = generator w).
Proof.
  intros l w'. unfold new_parameter, on_objects, alloc. intros [= <- <-].
  unfold holds. cbn. by rewrite lookup_insert_eq.
Qed.

Lemma new_parameters_hold ps : forall w,
  ensures (new_parameters ps) w
    (fun ls w' =>
       Forall2 (fun nl nv => nl.1 = nv.1 /\ holds (objects w') nl.2 nv.2) ls ps /\
       generator w' = generator w).
Proof.
  induction ps as [|[name v] ps IH]; intros w; cbn [new_parameters].
  - apply ensures_ret. split; [constructor | done].
  - eapply ensures_bind; [apply new_parameter_holds|]. intros l w1 [Hl Hg1].
    eapply ensures_bind.
    { apply ensures_and; [apply IH | apply new_parameters_ensures]. }
    intros ls w2 [[Hls Hg2] [(Hsub & _) _]].
    apply ensures_ret. split; [|congruence].
    constructor; [|done]. split; [done|]. cbn.
    by apply (holds_weaken (objects w1)).
Qed.

Lemma nn_Linear_generator init a b w :
  ensures (nn_Linear init a b) w
    (fun _ w' => generator w' = (init a b (generator w)).2).
Proof.
  unfold nn_Linear. destruct ((a <? 0) || (b <? 0)); [done|].
  eapply ensures_bind; [apply on_generator_ensures|]. intros v w0 (_ & _ & _ & Hg).
  eapply ensures_bind; [apply new_parameter_holds|]. intros lw w1 [_ H1].
  eapply ensures_bind; [apply new_parameter_holds|]. intros lb w2 [_ H2].
  apply ensures_ret. congruence.
Qed.

Lemma hidden_layers_generator init full range : forall acc w,
  ensures (hidden_layers init full range acc) w
    (fun _ w' =>
       generator w' =
         foldl (fun g j => (init (nth j full 0) (nth (S j) full 0) g).2) (generator w) range).
Proof.
  induction range as [|j range IH]; intros acc w; cbn [hidden_layers foldl].
  - by apply ensures_ret.
  - eapply ensures_bind; [apply ensures_of_option|]. intros a ? [Ha ->].
    eapply ensures_bind; [apply ensures_of_option|]. intros b ? [Hb ->].
    apply index_Some_nth in Ha as ->.
    replace (Z.of_nat j + 1) with (Z.of_nat (S j)) in Hb by lia.
    apply index_Some_nth in Hb as ->.
    eapply ensures_bind; [apply nn_Linear_generator|]. intros l w1 Hg.
    eapply ensures_weaken; [apply IH|]. intros seq w2 ->. by rewrite Hg.
Qed.

Lemma build_head_generator init F nc layers w :
  ensures (build_head init F nc layers) w
    (fun _ w' => generator w' = draws_for_head init ([F] ++ layers ++ [nc]) (generator w)).
Proof.
  unfold build_head, draws_for_head. set (full := [F] ++ layers ++ [nc]).
  assert (Hlen : length full = S (S (length layers))).
  { unfold full. cbn. rewrite length_app. cbn. lia. }
  clearbody full.
  eapply ensures_bind; [apply hidden_layers_generator|]. intros seq w1 Hg1.
  eapply ensures_bind; [apply ensures_of_option|]. intros a ? [Ha ->].
  eapply ensures_bind; [apply ensures_of_option|]. intros b ? [Hb ->].
  eapply ensures_bind; [apply nn_Linear_generator|]. intros l w2 Hg2.
  apply ensures_ret.
  change (-2) with (- Z.of_nat 2) in Ha. change (-1) with (- Z.of_nat 1) in Hb.
  rewrite index_from_end in Ha, Hb by lia.
  injection Ha as <-. injection Hb as <-.
  rewrite Hg2, Hg1, Hlen.
  replace (S (S (length layers)) - 1)%nat with (S (length layers)) by lia.
  replace (S (S (length layers)) - 2)%nat with (length layers) by lia.
  rewrite seq_S, foldl_app. cbn [foldl Nat.add]. done.
Qed.

Lemma instantiate_loads init p w :
  ensures (instantiate init (Builder p)) w
    (fun model w' =>
       Forall2 (fun nl nv => nl.1 = nv.1 /\ holds (objects w') nl.2 nv.2)
         (trunk model) (trunk_weights p) /\
       generator w' = construction p (generator w)).
Proof.
  unfold instantiate.
  eapply ensures_bind; [apply on_generator_ensures|]. intros [] wg (_ & _ & _ & Hg).
  eapply ensures_bind; [apply new_parameters_hold|]. intros t w1 [Ht Hg1].
  destruct (fc_weights p) as [[[[a b] v1] v2]|].
  - eapply ensures_bind.
    { apply ensures_and; [apply new_parameter_holds | apply new_parameter_ensures]. }
    intros lw w2 [[_ Hg2] (Hsub2 & _)].
    eapply ensures_bind.
    { apply ensures_and; [apply new_parameter_holds | apply new_parameter_ensures]. }
    intros lb w3 [[_ Hg3] (Hsub3 & _)].
    apply ensures_ret. cbn [trunk]. split; [|cbn in Hg; congruence].
    eapply Forall2_impl; [exact Ht|]. intros nl nv [Hn Hh]. split; [done|].
    apply (holds_weaken (objects w2)); [done|].
    by apply (holds_weaken (objects w1)).
  - apply ensures_ret. cbn [trunk]. split; [done|]. cbn in Hg. congruence.
Qed.

(** Freezing changes flags, not numbers. *)
Lemma freeze_holds model w :
  ensures (freeze model) w
    (fun _ w' => (forall l v, holds (objects w) l v -> holds (objects w') l v) /\
                 generator w' = generator w).
Proof.
  intros [] w' Hrun. destruct (freeze_ensures model w tt w' Hrun) as [_ Hlook].
  split.
  - intros l v. unfold holds. rewrite Hlook.
    destruct (decide (l ∈ parameters model)); [|done].
    by destruct (objects w !! l).
  - unfold freeze, on_objects in Hrun. by injection Hrun as <-.
Qed.

Section Adapt.
Context (init : linear_init) (nc : Z) (layers : list Z) (model : network).

(** [net] changes no number of a tensor that exists when the network
    has been instantiated. *)
Lemma adapt_holds w :
  ensures (adapt init nc layers model) w
    (fun _ w' => forall l v, holds (objects w) l v -> holds (objects w') l v).
Proof.
  unfold adapt.
  eapply ensures_bind; [apply freeze_holds|]. intros [] w1 [H1 _].
  eapply ensures_bind; [apply fc_in_features_ensures|]. intros F ? (-> & _).
  eapply ensures_bind; [apply build_head_ensures|]. intros seq w2 (_ & H2 & _).
  eapply ensures_bind; [apply logger_info_ensures|]. intros [] w3 [H3 _].
  apply ensures_ret. intros l v Hl. rewrite H3.
  apply (holds_weaken (objects w1)); [done|]. by apply H1.
Qed.

Lemma adapt_generator w :
  ensures (adapt init nc layers model) w
    (fun _ w' => exists l, fc model = Some (Single l) /\
       generator w' =
         draws_for_head init ([in_features l] ++ layers ++ [nc]) (generator w)).
Proof.
  unfold adapt.
  eapply ensures_bind; [apply freeze_holds|]. intros [] w1 [_ H1].
  eapply ensures_bind; [apply fc_in_features_ensures|]. intros F ? (-> & l & Hl & ->).
  eapply ensures_bind; [apply build_head_generator|]. intros seq w2 H2.
  intros result w3. unfold Nn.bind, logger_info, ret. intros [= _ <-]. cbn.
  exists l. split; [done|]. by rewrite H2, H1.
Qed.

(** Every parameter of the instantiated network is frozen, those of
    the classifier that is replaced included. *)
Lemma adapt_freezes_all w0 w :
  allocates w0 (parameters model) w ->
  ensures (adapt init nc layers model) w
    (fun _ w' => Forall (frozen (objects w')) (parameters model)).
Proof.
  intros (_ & _ & Hnew). unfold adapt.
  eapply ensures_bind; [apply freeze_ensures|]. intros [] w1 [_ Hfrozen].
  eapply ensures_bind; [apply fc_in_features_ensures|]. intros F ? (-> & _).
  eapply ensures_bind; [apply build_head_ensures|]. intros seq w2 (_ & Hsub & _).
  eapply ensures_bind; [apply logger_info_ensures|]. intros [] w3 [Ho3 _].
  apply ensures_ret. rewrite Ho3. apply Forall_forall. intros i Hi.
  apply (frozen_weaken (objects w1)); [done|].
  rewrite Forall_forall in Hnew. destruct (Hnew i Hi) as (_ & c & Hc & _).
  exists {| data := data c; requires_grad := false |}.
  rewrite Hfrozen, decide_True, Hc by done. done.
Qed.
End Adapt.

(** [net] on the network it instantiated. *)
Lemma net_body_backbone models init model_name nc layers w result w' :
  net_body models init model_name nc layers w = (Ok result, w') ->
  exists p backbone w1 l,
    models !! model_name = Some (Builder p) /\
    instantiate init (Builder p) (started w) = (Ok backbone, w1) /\
    adapt init nc layers backbone w1 = (Ok result, w') /\
    fc backbone = Some (Single l) /\
    Forall2 (fun nl nv => nl.1 = nv.1 /\ holds (objects w') nl.2 nv.2)
      (trunk backbone) (trunk_weights p) /\
    Forall (frozen (objects w')) (parameters backbone) /\
    (forall i v, holds (objects w) i v -> holds (objects w') i v) /\
    generator w' =
      draws_for_head init ([in_features l] ++ layers ++ [nc]) (construction p (generator w)).
Proof.
  unfold net_body, lookup_model. unfold Nn.bind at 1 2. cbn [logger_info].
  fold (started w).
  destruct (models !! model_name) as [[p|]|] eqn:Hm; cbn [of_option ret raise]; [|done..].
  unfold Nn.bind at 1.
  destruct (instantiate init (Builder p) (started w)) as [[backbone|e] w1] eqn:Hinst; [|done].
  intros Hrun.
  destruct (instantiate_ensures init p (started w) backbone w1 Hinst) as (Halloc & _ & _).
  destruct (instantiate_loads init p (started w) backbone w1 Hinst) as (Hload & Hg1).
  destruct (adapt_generator init nc layers backbone w1 result w' Hrun) as (l & Hl & Hg).
  pose proof (adapt_holds init nc layers backbone w1 result w' Hrun) as Hkeep.
  pose proof (adapt_freezes_all init nc layers backbone (started w) w1 Halloc result w' Hrun)
    as Hfrozen.
  exists p, backbone, w1, l. split; [done|]. split; [done|]. split; [done|].
  split; [done|]. split; [|split; [done|split]].
  - eapply Forall2_impl; [exact Hload|]. intros nl nv [Hn Hh]. split; [done | by apply Hkeep].
  - intros i v Hi. apply Hkeep. destruct Halloc as (Hsub & _).
    by apply (holds_weaken (objects (started w))).
  - by rewrite Hg, Hg1.
Qed.

Lemma shape_ReLU l : shape l = ReLUShape -> l = ReLU.
Proof. by destruct l. Qed.

(** C4.  For a backbone whose classifier has input width [F], for
    [num_classes] and hidden widths [layers] (none of them negative),
    [net] returns a model whose head has the width profile
    [[F] ++ layers ++ [num_classes]]: the layers at the even positions
    are the linear layers between neighbouring widths, in order, the
    layers at the odd positions are activations, the last layer is
    linear, and with no hidden width the head is the single linear layer
    from [F] to [num_classes]. *)
Theorem head_follows_width_profile models init model_name num_classes layers w p F b w0 b0 :
  is_plain_name model_name = true ->
  models !! model_name = Some (Builder p) ->
  fc_weights p = Some (F, b, w0, b0) ->
  0 <= F -> 0 <= num_classes -> Forall (fun x => 0 <= x) layers ->
  exists model w' seq,
    net models init model_name num_classes layers w = Some (Ok model, w') /\
    fc model = Some (Sequential seq) /\
    map shape seq = head_of_profile ([F] ++ layers ++ [num_classes]) /\
    length seq = (2 * length layers + 1)%nat /\
    (forall i, (i <= length layers)%nat ->
       shape <$> seq !! (2 * i)%nat =
         Some (LinearShape (nth i ([F] ++ layers ++ [num_classes]) 0)
                           (nth (S i) ([F] ++ layers ++ [num_classes]) 0))) /\
    (forall i, (i < length layers)%nat -> seq !! (2 * i + 1)%nat = Some ReLU) /\
    (layers = [] -> map shape seq = [LinearShape F num_classes]).
Proof.
  intros Hname Hm Hfc HF Hnc Hl. unfold net. rewrite Hname.
  destruct (returns_ensures _ w _ _
              (net_body_returns models init model_name num_classes layers w
                 p F b w0 b0 Hm Hfc HF Hnc Hl)
              (net_body_ensures models init model_name num_classes layers w))
    as (model & w' & Hrun & _ & (p' & F' & Hm' & (b' & w0' & b0' & Hfc') & _ & seq & Hseq & Hshape) & _).
  assert (p' = p) as -> by congruence.
  assert (F' = F) as -> by congruence.
  exists model, w', seq. split; [by rewrite Hrun|]. split; [done|]. split; [done|].
  set (full := [F] ++ layers ++ [num_classes]) in *.
  assert (Hlen : length full = S (S (length layers))).
  { unfold full. cbn. rewrite length_app. cbn. lia. }
  destruct (head_of_profile_layout full) as (Hn & Hlin & Hrelu); [lia|].
  rewrite <- Hshape in Hn, Hlin, Hrelu. rewrite length_map in Hn.
  replace (length full - 2)%nat with (length layers) in * by lia.
  split; [done|]. split; [|split].
  - intros i Hi. rewrite <- list_lookup_fmap. by apply Hlin.
  - intros i Hi. specialize (Hrelu i Hi).
    change (map shape seq) with (shape <$> seq) in Hrelu.
    rewrite list_lookup_fmap in Hrelu.
    destruct (seq !! (2 * i + 1)%nat) as [l|]; [|done].
    injection Hrelu as Hrelu. by rewrite (shape_ReLU l Hrelu).
  - intros ->. by rewrite Hshape.
Qed.

(** The statement for [resnet18], five classes and hidden widths 4, 3. *)
Lemma head_follows_width_profile_witness :
  exists model w' seq,
    net demo_models demo_init "resnet18" 5 [4; 3] demo_world = Some (Ok model, w') /\
    fc model = Some (Sequential seq) /\
    map shape seq = head_of_profile ([512] ++ [4; 3] ++ [5]) /\
    length seq = (2 * length [4; 3] + 1)%nat /\
    (forall i, (i <= length [4; 3])%nat ->
       shape <$> seq !! (2 * i)%nat =
         Some (LinearShape (nth i ([512] ++ [4; 3] ++ [5]) 0)
                           (nth (S i) ([512] ++ [4; 3] ++ [5]) 0))) /\
    (forall i, (i < length [4; 3])%nat -> seq !! (2 * i + 1)%nat = Some ReLU) /\
    ([4; 3] = [] -> map shape seq = [LinearShape 512 5]).
Proof.
  eapply (head_follows_width_profile demo_models demo_init "resnet18" 5 [4; 3] demo_world).
  - reflexivity.
  - reflexivity.
  - reflexivity.
  - lia.
  - lia.
  - repeat constructor; lia.
Defined.

(** C6, as stated, fails in its last part: [net] changes a global, the
    default random generator of the framework, from which the initial
    numbers of every new linear layer are drawn. *)
Lemma net_advances_the_generator :
  exists model w',
    net demo_models demo_init "resnet18" 5 [4; 3] demo_world = Some (Ok model, w') /\
    position (generator demo_world) = 0%nat /\
    position (generator w') = 2090%nat /\
    generator w' <> generator demo_world.
Proof.
  eexists _, _. split; [vm_compute; reflexivity|].
  split; [reflexivity|]. split; [vm_compute; reflexivity|].
  intros H. apply (f_equal position) in H. vm_compute in H. discriminate.
Qed.

(** C6, as amended.  After [net] returns, the model consists of the
    trunk of the backbone that was instantiated for the name, whose
    parameters hold their pretrained numbers, and of the new head;
    every parameter of that backbone, those of its replaced classifier
    included, has [requires_grad = false], every parameter of the head
    has [requires_grad = true], and a parameter of the model is
    trainable exactly when it belongs to the head.  No object that
    existed before the call is changed.  The call is not free of
    effects: it writes its two log records, and the default random
    generator is left where the random initialisations of the
    constructor and of the new linear layers, in their order, take
    it. *)
Theorem net_freezes_backbone models init model_name num_classes layers w model w' :
  net models init model_name num_classes layers w = Some (Ok model, w') ->
  exists p backbone w1 l seq,
    models !! model_name = Some (Builder p) /\
    instantiate init (Builder p) (started w) = (Ok backbone, w1) /\
    fc backbone = Some (Single l) /\
    trunk model = trunk backbone /\
    fc model = Some (Sequential seq) /\
    map shape seq = head_of_profile ([in_features l] ++ layers ++ [num_classes]) /\
    Forall2 (fun nl nv => nl.1 = nv.1 /\ holds (objects w') nl.2 nv.2)
      (trunk model) (trunk_weights p) /\
    Forall (frozen (objects w')) (parameters backbone) /\
    Forall (trainable (objects w')) (head_parameters (fc model)) /\
    (forall i, i ∈ parameters model ->
       trainable (objects w') i <-> i ∈ head_parameters (fc model)) /\
    objects w ⊆ objects w' /\
    records w' = records w ++ [ModelCreationStarted; ModelCreationCompleted] /\
    generator w' =
      draws_for_head init ([in_features l] ++ layers ++ [num_classes])
        (construction p (generator w)).
Proof.
  unfold net. destruct (is_plain_name model_name); [|done]. intros [= Hrun].
  destruct (net_body_backbone models init model_name num_classes layers w model w' Hrun)
    as (p & backbone & w1 & l & Hm & Hinst & Hadapt & Hl & Hload & Hfrozen & _ & Hg).
  destruct (instantiate_ensures init p (started w) backbone w1 Hinst) as (Halloc & _ & _).
  destruct (adapt_ensures init num_classes layers backbone (started w) w1 Halloc
              model w' Hadapt)
    as (Htrunk & (l' & seq & Hl' & Hseq & Hshape) & Hfr & Htrain & Hsub & Hrec).
  assert (l' = l) as -> by congruence.
  exists p, backbone, w1, l, seq.
  split; [done|]. split; [done|]. split; [done|]. split; [done|]. split; [done|].
  split; [done|]. split; [by rewrite Htrunk|]. split; [done|]. split; [done|].
  split; [|split; [done|split; [|done]]].
  - intros i Hi. split.
    + intros (c & Hc & Hgrad). unfold parameters in Hi.
      apply elem_of_app in Hi as [Hi|Hi]; [|done].
      rewrite Forall_forall in Hfr. destruct (Hfr i Hi) as (c' & Hc' & Hgrad').
      congruence.
    + intros Hin. rewrite Forall_forall in Htrain. by apply Htrain.
  - rewrite Hrec. cbn. by rewrite <- app_assoc.
Qed.

(** The statement for [resnet18], five classes and hidden widths 4, 3,
    in a store that already holds an object. *)
Lemma net_freezes_backbone_witness :
  exists model w' p backbone w1 l seq,
    net demo_models demo_init "resnet18" 5 [4; 3] demo_world = Some (Ok model, w') /\
    demo_models !! "resnet18"%string = Some (Builder p) /\
    instantiate demo_init (Builder p) (started demo_world) = (Ok backbone, w1) /\
    fc backbone = Some (Single l) /\
    trunk model = trunk backbone /\
    fc model = Some (Sequential seq) /\
    map shape seq = head_of_profile ([in_features l] ++ [4; 3] ++ [5]) /\
    Forall2 (fun nl nv => nl.1 = nv.1 /\ holds (objects w') nl.2 nv.2)
      (trunk model) (trunk_weights p) /\
    Forall (frozen (objects w')) (parameters backbone) /\
    Forall (trainable (objects w')) (head_parameters (fc model)) /\
    (forall i, i ∈ parameters model ->
       trainable (objects w') i <-> i ∈ head_parameters (fc model)) /\
    objects demo_world ⊆ objects w' /\
    records w' = records demo_world ++ [ModelCreationStarted; ModelCreationCompleted] /\
    generator w' =
      draws_for_head demo_init ([in_features l] ++ [4; 3] ++ [5])
        (construction p (generator demo_world)).
Proof.
  eexists _, _.
  assert (H : net demo_models demo_init "resnet18" 5 [4; 3] demo_world = Some (Ok _, _))
    by (vm_compute; reflexivity).
  destruct (net_freezes_backbone _ _ _ _ _ _ _ _ H) as (p & backbone & w1 & l & seq & Hrest).
  exists p, backbone, w1, l, seq. split; [exact H | exact Hrest].
Defined.

(** C7, as stated, fails: for a name that the namespace does not bind,
    the call fails with [AttributeError], not with
    [UnknownModelError]. *)
Lemma unknown_name_raises_attribute_error :
  demo_models !! "resnet51"%string = None /\
  net demo_models demo_init "resnet51" 5 [] demo_world =
    Some (Raise AttributeError,
          {| objects := objects demo_world; records := [ModelCreationStarted];
             generator := generator demo_world |}) /\
  ~ (forall model_name, demo_models !! model_name = None ->
       exists w', net demo_models demo_init model_name 5 [] demo_world =
                    Some (Raise UnknownModelError, w')).
Proof.
  split; [reflexivity|]. split; [reflexivity|].
  intros H. destruct (H "resnet51"%string eq_refl) as (w' & Hw'). discriminate.
Qed.

(** C7, as amended.  [net] has no registry of architectures and no error
    of its own: for a plain name it looks the name up in the namespace
    of the model library.  A name that is not bound there fails with
    the [AttributeError] of the lookup, a name bound to something that
    is not a model constructor fails with the [TypeError] of the call,
    and a name bound to a constructor is instantiated with its
    pretrained numbers before [net] goes on. *)
Theorem net_resolves_name_dynamically models init model_name num_classes layers w :
  is_plain_name model_name = true ->
  let w0 := {| objects := objects w; records := records w ++ [ModelCreationStarted];
               generator := generator w |} in
  (models !! model_name = None ->
     net models init model_name num_classes layers w = Some (Raise AttributeError, w0)) /\
  (models !! model_name = Some NotBuilder ->
     net models init model_name num_classes layers w = Some (Raise TypeError, w0)) /\
  (forall p, models !! model_name = Some (Builder p) ->
     exists model w1,
       instantiate init (Builder p) w0 = (Ok model, w1) /\
       (trunk model).*1 = (trunk_weights p).*1 /\
       allocates w0 (parameters model) w1 /\
       net models init model_name num_classes layers w =
         Some (adapt init num_classes layers model w1)).
Proof.
  intros Hname w0. unfold net, net_body, lookup_model. rewrite Hname.
  split; [|split].
  - by intros ->.
  - by intros ->.
  - intros p ->.
    destruct (returns_ensures _ w0 _ _ (instantiate_returns init p w0)
                (instantiate_ensures init p w0))
      as (model & w1 & Hrun & _ & Halloc & Hnames & _).
    exists model, w1. split; [done|]. split; [done|]. split; [done|].
    unfold Nn.bind at 1 2 3. cbn [logger_info of_option ret]. fold w0. by rewrite Hrun.
Qed.

(** The statement for the name [resnet18]. *)
Lemma net_resolves_name_dynamically_witness :
  exists model w1,
    instantiate demo_init
      (Builder {| trunk_weights := [("conv1.weight"%string, [1 # 4]%Q)];
                  fc_weights := Some (512, 1000, [1 # 8]%Q, [0]%Q);
                  construction := skip 3 |})
      {| objects := objects demo_world;
         records := records demo_world ++ [ModelCreationStarted];
         generator := generator demo_world |} = (Ok model, w1) /\
    (trunk model).*1 = ["conv1.weight"%string] /\
    allocates {| objects := objects demo_world;
                 records := records demo_world ++ [ModelCreationStarted];
                 generator := generator demo_world |}
      (parameters model) w1 /\
    net demo_models demo_init "resnet18" 5 [4; 3] demo_world =
      Some (adapt demo_init 5 [4; 3] model w1).
Proof.
  apply (net_resolves_name_dynamically demo_models demo_init "resnet18" 5 [4; 3] demo_world).
  - reflexivity.
  - reflexivity.
Defined.



(** For an architecture without the attribute [fc], [net] raises
    [AttributeError] at line 140: the backbone has been instantiated
    and all its parameters are already frozen, no object that existed
    before is changed, and only the start of the creation has been
    logged. *)
Theorem net_needs_the_fc_attribute models init model_name num_classes layers w p :
  is_plain_name model_name = true ->
  models !! model_name = Some (Builder p) ->
  fc_weights p = None ->
  exists backbone w1 w',
    instantiate init (Builder p) (started w) = (Ok backbone, w1) /\
    net models init model_name num_classes layers w = Some (Raise AttributeError, w') /\
    Forall (frozen (objects w')) (parameters backbone) /\
    (trunk backbone).*1 = (trunk_weights p).*1 /\
    objects w ⊆ objects w' /\
    records w' = records w ++ [ModelCreationStarted].
Proof.
  intros Hname Hm Hfc. unfold net, net_body, lookup_model. rewrite Hname.
  unfold Nn.bind at 1 2. cbn [logger_info]. fold (started w). rewrite Hm.
  cbn [of_option ret]. unfold Nn.bind at 1.
  destruct (returns_ensures _ (started w) _ _ (instantiate_returns init p (started w))
              (instantiate_ensures init p (started w)))
    as (backbone & w1 & Hinst & _ & Halloc & Hnames & Hnofc).
  rewrite Hfc in Hnofc. rewrite Hinst.
  unfold adapt. unfold Nn.bind at 1.
  destruct (freeze backbone w1) as [[[]|e] w2] eqn:Hfreeze.
  2:{ unfold freeze, on_objects in Hfreeze. done. }
  destruct (freeze_ensures backbone w1 tt w2 Hfreeze) as [Hrec Hlook].
  unfold Nn.bind at 1. unfold fc_in_features. rewrite Hnofc. cbn [raise].
  exists backbone, w1, w2. split; [done|]. split; [done|].
  destruct Halloc as (Hsub & Hrec1 & Hnew).
  split; [|split; [done|split]].
  - apply Forall_forall. intros i Hi.
    rewrite Forall_forall in Hnew. destruct (Hnew i Hi) as (_ & c & Hc & _).
    exists {| data := data c; requires_grad := false |}.
    rewrite Hlook, decide_True, Hc by done. done.
  - apply map_subseteq_spec. intros i c Hi. rewrite Hlook.
    rewrite decide_False; [by eapply lookup_weaken|].
    intros Hin. rewrite Forall_forall in Hnew. destruct (Hnew i Hin) as [Hfresh _].
    apply Hfresh. apply elem_of_dom. eauto.
  - by rewrite Hrec, Hrec1.
Qed.

Lemma net_needs_the_fc_attribute_witness :
  exists backbone w1 w',
    instantiate demo_init
      (Builder {| trunk_weights := [("features.0.weight"%string, [1 # 3]%Q)];
                  fc_weights := None; construction := skip 1 |})
      (started demo_world) = (Ok backbone, w1) /\
    net demo_models demo_init "vgg16" 5 [4; 3] demo_world = Some (Raise AttributeError, w') /\
    Forall (frozen (objects w')) (parameters backbone) /\
    (trunk backbone).*1 = ["features.0.weight"%string] /\
    objects demo_world ⊆ objects w' /\
    records w' = records demo_world ++ [ModelCreationStarted].
Proof.
  apply (net_needs_the_fc_attribute demo_models demo_init "vgg16" 5 [4; 3] demo_world).
  - reflexivity.
  - reflexivity.
  - reflexivity.
Defined.

(** ** Loaders, evaluation and the entry point *)

(** Every subset produced by [random_split] is a view on the dataset it
    was given. *)
Lemma random_split_views B data g :
  Forall (fun s => dataset s = data) (random_split B data g).1.
Proof.
  unfold random_split. destruct (randperm B (length (samples data)) g) as [perm g'].
  cbn [fst].
  generalize (split_lengths (length (samples data))). intros lens.
  assert (H : Forall (fun s => dataset s = data) (@nil Subset)) by constructor.
  revert H. generalize (@nil Subset) at 1 3. revert perm.
  induction lens as [|n lens IH]; intros perm acc Hacc; cbn [foldl]; [done|].
  apply IH. cbn. apply Forall_app. split; [done|]. by constructor.
Qed.

(** C3.  The claim: the validation and test loaders use a deterministic
    resize-only transform and only the training loader augments.  In
    [create_data_loaders] the three loaders are views on one dataset,
    created with the training transform: the validation and test
    loaders apply the random crop and the random flip as well, and the
    transform without random steps is never used. *)
Theorem evaluation_loaders_share_training_transform B files data_path batch_size g
    train_loader valid_loader test_loader g' :
  create_data_loaders B files data_path batch_size g =
    (Ok (train_loader, valid_loader, test_loader), g') ->
  transform_of (dataset (loader_dataset train_loader)) = train_transform /\
  transform_of (dataset (loader_dataset valid_loader)) = train_transform /\
  transform_of (dataset (loader_dataset test_loader)) = train_transform /\
  dataset (loader_dataset valid_loader) = dataset (loader_dataset train_loader) /\
  dataset (loader_dataset test_loader) = dataset (loader_dataset train_loader) /\
  filter (fun t => is_random t = true) train_transform =
    [RandomResizedCrop (224, 224); RandomHorizontalFlip] /\
  filter (fun t => is_random t = true) test_transform = [].
Proof.
  unfold create_data_loaders. destruct (files data_path) as [|x xs] eqn:Hfiles; [done|].
  set (data := {| samples := x :: xs; transform_of := train_transform |}).
  pose proof (random_split_views B data g) as Hviews.
  destruct (random_split B data g) as [subsets g1]. cbn [fst] in Hviews.
  destruct subsets as [|tr [|va [|te [|? ?]]]]; try done.
  apply Forall_cons in Hviews as [Htr Hviews].
  apply Forall_cons in Hviews as [Hva Hviews].
  apply Forall_cons in Hviews as [Hte _].
  unfold new_DataLoader. destruct (batch_size <=? 0); [done|].
  intros [= <- <- <- <-]. cbn. rewrite Htr, Hva, Hte. done.
Qed.

(** The statement for a folder of ten pictures. *)
Lemma evaluation_loaders_share_training_transform_witness :
  exists train_loader valid_loader test_loader g',
    create_data_loaders demo_backend demo_files "data" 64 demo_rng =
      (Ok (train_loader, valid_loader, test_loader), g') /\
    transform_of (dataset (loader_dataset train_loader)) = train_transform /\
    transform_of (dataset (loader_dataset valid_loader)) = train_transform /\
    transform_of (dataset (loader_dataset test_loader)) = train_transform /\
    dataset (loader_dataset valid_loader) = dataset (loader_dataset train_loader) /\
    dataset (loader_dataset test_loader) = dataset (loader_dataset train_loader) /\
    filter (fun t => is_random t = true) train_transform =
      [RandomResizedCrop (224, 224); RandomHorizontalFlip] /\
    filter (fun t => is_random t = true) test_transform = [].
Proof.
  eexists _, _, _, _. split; [vm_compute; reflexivity|].
  eapply (evaluation_loaders_share_training_transform
            demo_backend demo_files "data" 64 demo_rng).
  vm_compute. reflexivity.
Defined.

(** C5.  The claim: two runs of [test] on the same model and the same
    test partition report the same loss and accuracy.  The test loader
    applies the random flip of the training transform, so a run
    depends on the state of the random generator it starts from: here
    the first run reports 0 correct out of 1 (loss 1), and the second,
    started where the first one left the generator, 1 out of 1
    (loss 0), with the storage of the model untouched in between. *)
Theorem test_twice_reports_differently :
  exists train_loader valid_loader test_loader g r1 g1 r2 g2,
    create_data_loaders demo_backend demo_files "data" 64 demo_rng =
      (Ok (train_loader, valid_loader, test_loader), g) /\
    test demo_backend demo_evaluator demo_heap test_loader g = (r1, g1) /\
    test demo_backend demo_evaluator demo_heap test_loader g1 = (r2, g2) /\
    reported r1 = Some (0, 1, 1%Q) /\
    reported r2 = Some (1, 1, 0%Q).
Proof.
  eexists _, _, _, _, _, _, _, _.
  split; [vm_compute; reflexivity|].
  split; [vm_compute; reflexivity|].
  split; [vm_compute; reflexivity|].
  split; vm_compute; reflexivity.
Qed.

Section Batches.
Context (B : backend) (E : evaluator) (h : heap) (s : Subset).






End Batches.




(** On an empty partition no batch is seen and the division by the
    length of the partition raises (line 46). *)
Lemma test_on_empty_partition_raises B E h (L : DataLoader) g :
  indices (loader_dataset L) = [] ->
  test B E h L g = (Raise ZeroDivisionError, g).
Proof. intros H. unfold test. by rewrite H. Qed.

Section Deterministic.
Context (B : backend).





End Deterministic.



(** The three lengths of the split: the test share is the tenth of the
    total rounded down; what the floors leave over (at most two items)
    goes to the training share first, then to the validation share. *)
Lemma split_lengths_shape (n : nat) :
  exists a b, split_lengths n = [a; b; (n / 10)%nat] /\
              (a + b + n / 10 = n)%nat /\
              (8 * n / 10 <= a <= 8 * n / 10 + 1)%nat /\
              (n / 10 <= b <= n / 10 + 1)%nat.
Proof.
  unfold split_lengths.
  pose proof (Nat.div_mod_eq (8 * n) 10) as Ha.
  pose proof (Nat.mod_upper_bound (8 * n) 10) as Ha'.
  pose proof (Nat.div_mod_eq n 10) as Hb.
  pose proof (Nat.mod_upper_bound n 10) as Hb'.
  set (a := (8 * n / 10)%nat) in *. set (b := (n / 10)%nat) in *.
  clearbody a b.
  set (r := (n - sum_list [a; b; b])%nat).
  assert (Hr : r = (n - (a + b + b))%nat) by (unfold r; cbn; lia).
  clearbody r.
  assert (Hcases : r = 0%nat \/ r = 1%nat \/ r = 2%nat) by lia.
  destruct Hcases as [-> | [-> | ->]].
  - exists a, b. split; [reflexivity|]. lia.
  - exists (S a), b. split; [reflexivity|]. lia.
  - exists (S a), (S b). split; [reflexivity|]. lia.
Qed.

Lemma create_data_loaders_split B files data_path size g perm g' :
  files data_path <> [] -> 1 <= size ->
  randperm B (length (files data_path)) g = (perm, g') ->
  length perm = length (files data_path) ->
  exists train_loader valid_loader test_loader,
    create_data_loaders B files data_path size g =
      (Ok (train_loader, valid_loader, test_loader), g') /\
    indices (loader_dataset train_loader) ++ indices (loader_dataset valid_loader) ++
      indices (loader_dataset test_loader) = perm /\
    [length (indices (loader_dataset train_loader));
     length (indices (loader_dataset valid_loader));
     length (indices (loader_dataset test_loader))] = split_lengths (length (files data_path)) /\
    length (indices (loader_dataset test_loader)) = (length (files data_path) / 10)%nat /\
    (shuffle train_loader, shuffle valid_loader, shuffle test_loader) = (true, false, false) /\
    (batch_size train_loader, batch_size valid_loader, batch_size test_loader) =
      (size, size, size).
Proof.
  intros Hne Hbs Hperm Hlen. unfold create_data_loaders, random_split.
  destruct (files data_path) as [|x xs] eqn:Hfiles; [done|].
  cbn [samples]. rewrite Hperm.
  destruct (split_lengths_shape (length (x :: xs))) as (a & b & -> & Hsum & _ & _).
  remember (length (x :: xs)) as n eqn:Hn. remember (n / 10)%nat as c eqn:Hc.
  cbn [foldl fst snd app].
  unfold new_DataLoader. replace (size <=? 0) with false by lia.
  eexists _, _, _. split; [done|]. cbn.
  rewrite !length_take, !length_drop.
  split; [|split; [|split; [|done]]].
  - rewrite (take_ge (drop b (drop a perm))) by (rewrite !length_drop; lia).
    by rewrite !take_drop.
  - f_equal; [lia|]. f_equal; [lia|]. f_equal. lia.
  - lia.
Qed.

(** For a non-empty folder and a batch size of at least 1,
    [create_data_loaders] returns three loaders whose index lists are
    consecutive pieces of the permutation drawn by [random_split], of
    the three split lengths: together they are the permutation, so they
    are disjoint and cover the folder when it is one.  The test share
    is a tenth of the folder, rounded down.  Only the training loader
    shuffles, and all three use the batch size given. *)
Theorem loaders_partition_the_permutation B files data_path size g perm g' :
  files data_path <> [] -> 1 <= size ->
  randperm B (length (files data_path)) g = (perm, g') ->
  length perm = length (files data_path) ->
  exists train_loader valid_loader test_loader,
    create_data_loaders B files data_path size g =
      (Ok (train_loader, valid_loader, test_loader), g') /\
    indices (loader_dataset train_loader) ++ indices (loader_dataset valid_loader) ++
      indices (loader_dataset test_loader) = perm /\
    [length (indices (loader_dataset train_loader));
     length (indices (loader_dataset valid_loader));
     length (indices (loader_dataset test_loader))] = split_lengths (length (files data_path)) /\
    length (indices (loader_dataset test_loader)) = (length (files data_path) / 10)%nat /\
    (shuffle train_loader, shuffle valid_loader, shuffle test_loader) = (true, false, false) /\
    (batch_size train_loader, batch_size valid_loader, batch_size test_loader) =
      (size, size, size).
Proof. apply create_data_loaders_split. Qed.

Lemma loaders_partition_the_permutation_witness :
  exists train_loader valid_loader test_loader,
    create_data_loaders demo_backend demo_files "data" 64 demo_rng =
      (Ok (train_loader, valid_loader, test_loader), demo_rng) /\
    indices (loader_dataset train_loader) ++ indices (loader_dataset valid_loader) ++
      indices (loader_dataset test_loader) = seq 0 10 /\
    [length (indices (loader_dataset train_loader));
     length (indices (loader_dataset valid_loader));
     length (indices (loader_dataset test_loader))] = split_lengths (length (demo_files "data")) /\
    length (indices (loader_dataset test_loader)) = (length (demo_files "data") / 10)%nat /\
    (shuffle train_loader, shuffle valid_loader, shuffle test_loader) = (true, false, false) /\
    (batch_size train_loader, batch_size valid_loader, batch_size test_loader) = (64, 64, 64).
Proof.
  apply (loaders_partition_the_permutation demo_backend demo_files "data" 64 demo_rng).
  - cbn. discriminate.
  - lia.
  - reflexivity.
  - reflexivity.
Defined.

(** A folder of fewer than ten pictures leaves the test partition empty,
    and [test] on the test loader raises at the division of line 46. *)
Theorem small_folder_has_no_test_items B E h files data_path size g perm g' :
  files data_path <> [] -> (length (files data_path) < 10)%nat -> 1 <= size ->
  randperm B (length (files data_path)) g = (perm, g') ->
  length perm = length (files data_path) ->
  exists train_loader valid_loader test_loader,
    create_data_loaders B files data_path size g =
      (Ok (train_loader, valid_loader, test_loader), g') /\
    indices (loader_dataset test_loader) = [] /\
    test B E h test_loader g' = (Raise ZeroDivisionError, g').
Proof.
  intros Hne Hsmall Hbs Hperm Hlen.
  destruct (create_data_loaders_split B files data_path size g perm g'
              Hne Hbs Hperm Hlen) as (tr & va & te & Hrun & _ & _ & Hte & _).
  exists tr, va, te. split; [done|].
  assert (Hnil : indices (loader_dataset te) = []).
  { apply length_zero_iff_nil. rewrite Hte. apply Nat.div_small. lia. }
  split; [done|]. by apply test_on_empty_partition_raises.
Qed.

Lemma small_folder_has_no_test_items_witness :
  let files := fun _ : string => repeat (demo_picture, 1) 7 in
  exists train_loader valid_loader test_loader,
    create_data_loaders demo_backend files "data" 64 demo_rng =
      (Ok (train_loader, valid_loader, test_loader), demo_rng) /\
    indices (loader_dataset test_loader) = [] /\
    test demo_backend demo_evaluator demo_heap test_loader demo_rng =
      (Raise ZeroDivisionError, demo_rng).
Proof.
  intros files.
  apply (small_folder_has_no_test_items demo_backend demo_evaluator demo_heap
           files "data" 64 demo_rng (seq 0 7) demo_rng).
  - cbn. discriminate.
  - cbn. lia.
  - lia.
  - reflexivity.
  - reflexivity.
Defined.
